(** * FloraGuard: the structured-output AI request layer

    A shallow embedding of [services/geminiService.ts] (the five analysis
    functions, the three chat functions), of the [performAnalysis] flow of
    the [NutrientAnalyzer] component and of the [performSearch] flow and the
    grounding-source rendering of the [Weather] component.

    Conventions.
    - A JavaScript string is a sequence of UTF-16 code units: [jstring].
    - [JSON.parse] is a built-in of the platform; [JSON_parse] below follows
      the JSON grammar of ECMA-404 that the built-in implements.
    - A JSON number is kept as an exact decimal [m * 10^e]; the JavaScript
      Number is the IEEE-754 double nearest to it, which is the decimal
      itself for every integer of magnitude at most 2^53.
    - The remote service is a stub: a function from the request to the
      outcome of the call.  Every request sent and every [console.error]
      line is recorded in the [World]. *)

From Stdlib Require Import List String Ascii Bool ZArith NArith Lia.
From Stdlib Require DecimalString DecimalPos DecimalN DecimalZ DecimalFacts.
Import ListNotations.

Local Open Scope N_scope.
Set Warnings "-register-all".

(* ================================================================== *)
(** ** JavaScript strings *)
(* ================================================================== *)

Module JsString.

Definition code := N.
Definition jstring := list code.

(** The code units of an ASCII text. *)
Definition lit (s : string) : jstring :=
  map N_of_ascii (list_ascii_of_string s).

(** JSON text is written below with apostrophes where the text has
    double quotes: [dq] puts the double quotes (code 34) back. *)
Definition dq (s : string) : jstring :=
  map (fun c => if c =? 39 then 34 else c) (lit s).

Fixpoint eqb (a b : jstring) : bool :=
  match a, b with
  | [], [] => true
  | x :: a', y :: b' => (x =? y) && eqb a' b'
  | _, _ => false
  end.

(** [!s] is false exactly for the non-empty string. *)
Definition truthy (s : jstring) : bool :=
  match s with [] => false | _ :: _ => true end.

End JsString.
Import JsString.

(* ================================================================== *)
(** ** JSON values and [JSON.parse] *)
(* ================================================================== *)

Module Json.

Inductive JValue : Type :=
| JNull
| JBool (b : bool)
| JNumber (m e : Z)           (* the decimal m * 10^e *)
| JString (s : jstring)
| JArray (items : list JValue)
| JObject (props : list (jstring * JValue)).

(** Property assignment on an object under construction: a repeated
    key keeps its place and takes the later value. *)
Fixpoint obj_set (o : list (jstring * JValue)) (k : jstring) (v : JValue)
  : list (jstring * JValue) :=
  match o with
  | [] => [(k, v)]
  | (k', v') :: o' =>
      if JsString.eqb k' k then (k', v) :: o' else (k', v') :: obj_set o' k v
  end.

Fixpoint obj_get (o : list (jstring * JValue)) (k : jstring) : option JValue :=
  match o with
  | [] => None
  | (k', v') :: o' => if JsString.eqb k' k then Some v' else obj_get o' k
  end.

(** [v.k]: [None] stands for [undefined]. *)
Definition get (v : JValue) (k : jstring) : option JValue :=
  match v with
  | JObject o => obj_get o k
  | _ => None
  end.

(** *** Lexical level *)

Definition is_ws (c : code) : bool :=
  (c =? 32) || (c =? 9) || (c =? 10) || (c =? 13).

Fixpoint skip_ws (s : jstring) : jstring :=
  match s with
  | c :: r => if is_ws c then skip_ws r else s
  | [] => []
  end.

Definition digit_val (c : code) : option N :=
  if (48 <=? c) && (c <=? 57) then Some (c - 48) else None.

Definition hex_val (c : code) : option N :=
  if (48 <=? c) && (c <=? 57) then Some (c - 48)
  else if (97 <=? c) && (c <=? 102) then Some (c - 87)
  else if (65 <=? c) && (c <=? 70) then Some (c - 55)
  else None.

Definition hex4 (a b c d : code) : option code :=
  match hex_val a, hex_val b, hex_val c, hex_val d with
  | Some x, Some y, Some z, Some w => Some (((x * 16 + y) * 16 + z) * 16 + w)
  | _, _, _, _ => None
  end.

(** The character after a backslash, other than [u]. *)
Definition unescape (e : code) : option code :=
  if e =? 34 then Some 34          (* double quote *)
  else if e =? 92 then Some 92     (* backslash *)
  else if e =? 47 then Some 47     (* slash *)
  else if e =? 98 then Some 8      (* b: backspace *)
  else if e =? 102 then Some 12    (* f: form feed *)
  else if e =? 110 then Some 10    (* n: line feed *)
  else if e =? 114 then Some 13    (* r: carriage return *)
  else if e =? 116 then Some 9     (* t: tab *)
  else None.

Definition push (c : code) (r : option (jstring * jstring))
  : option (jstring * jstring) :=
  match r with
  | Some (t, rest) => Some (c :: t, rest)
  | None => None
  end.

(** The characters of a string literal, read after its opening quote. *)
Fixpoint read_string (s : jstring) : option (jstring * jstring) :=
  match s with
  | [] => None
  | c :: r =>
      if c =? 34 then Some ([], r)
      else if c =? 92 then
        match r with
        | [] => None
        | e :: r1 =>
            if e =? 117 then
              match r1 with
              | h1 :: h2 :: h3 :: h4 :: r2 =>
                  match hex4 h1 h2 h3 h4 with
                  | Some u => push u (read_string r2)
                  | None => None
                  end
              | _ => None
              end
            else
              match unescape e with
              | Some u => push u (read_string r1)
              | None => None
              end
        end
      else if c <? 32 then None
      else push c (read_string r)
  end.

(** Reads a (possibly empty) run of digits: the accumulated value, the
    number of digits read, the rest. *)
Fixpoint read_digits (s : jstring) (acc cnt : N) : N * N * jstring :=
  match s with
  | c :: r =>
      match digit_val c with
      | Some d => read_digits r (acc * 10 + d) (cnt + 1)
      | None => (acc, cnt, s)
      end
  | [] => (acc, cnt, [])
  end.

(** int: [0], or a digit 1-9 followed by digits. *)
Definition read_int (s : jstring) : option (N * jstring) :=
  match s with
  | [] => None
  | c :: r =>
      if c =? 48 then Some (0, r)
      else match digit_val c with
           | Some d => let '(i, _, r') := read_digits r d 0 in Some (i, r')
           | None => None
           end
  end.

(** frac: after the integer part [i], an optional [.] and one digit at
    least; gives the digits of both parts as one number and how many
    of them are after the point. *)
Definition read_frac (i : N) (s : jstring) : option (N * N * jstring) :=
  match s with
  | c :: r =>
      if c =? 46 then
        let '(f, k, r') := read_digits r i 0 in
        if k =? 0 then None else Some (f, k, r')
      else Some (i, 0, s)
  | [] => Some (i, 0, [])
  end.

(** exp: an optional [e] or [E], an optional sign, one digit at least. *)
Definition read_sign (r : jstring) : bool * jstring :=
  match r with
  | g :: r' =>
      if g =? 45 then (true, r')
      else if g =? 43 then (false, r') else (false, r)
  | [] => (false, r)
  end.

Definition read_exp (s : jstring) : option (Z * jstring) :=
  match s with
  | c :: r =>
      if (c =? 101) || (c =? 69) then
        let '(neg, r1) := read_sign r in
        let '(x, k, r2) := read_digits r1 0 0 in
        if k =? 0 then None
        else Some (if neg then (- Z.of_N x)%Z else Z.of_N x, r2)
      else Some (0%Z, s)
  | [] => Some (0%Z, [])
  end.

(** The number after its sign. *)
Definition read_unsigned (neg : bool) (s1 : jstring) : option (JValue * jstring) :=
match read_int s1 with
| None => None
| Some (i, s2) =>
    match read_frac i s2 with
    | None => None
    | Some (m, k, s3) =>
        match read_exp s3 with
        | None => None
        | Some (x, s4) =>
            Some (JNumber (if neg then - Z.of_N m else Z.of_N m)%Z
                          (x - Z.of_N k)%Z, s4)
        end
    end
end.

Definition read_number (s : jstring) : option (JValue * jstring) :=
match s with
| c :: r => if c =? 45 then read_unsigned true r else read_unsigned false s
| [] => None
end.

Fixpoint strip_prefix (p s : jstring) : option jstring :=
  match p, s with
  | [], _ => Some s
  | a :: p', b :: s' => if a =? b then strip_prefix p' s' else None
  | _ :: _, [] => None
  end.

Definition read_word (w : string) (v : JValue) (s : jstring)
  : option (JValue * jstring) :=
  match strip_prefix (lit w) s with
  | Some r => Some (v, r)
  | None => None
  end.

(** *** Values.  The recursion is on a bound [fuel], that [JSON_parse]
    takes from the length of the text. *)

Fixpoint parse_value (fuel : nat) (s : jstring) : option (JValue * jstring) :=
  match fuel with
  | O => None
  | S f =>
      match s with
      | [] => None
      | c :: r =>
          if c =? 123 then                       (* { *)
            match skip_ws r with
            | d :: r' =>
                if d =? 125 then Some (JObject [], r')
                else parse_members f (d :: r') []
            | [] => None
            end
          else if c =? 91 then                   (* [ *)
            match skip_ws r with
            | d :: r' =>
                if d =? 93 then Some (JArray [], r')
                else parse_elements f (d :: r') []
            | [] => None
            end
          else if c =? 34 then                   (* string *)
            match read_string r with
            | Some (t, r') => Some (JString t, r')
            | None => None
            end
          else if c =? 116 then read_word "true" (JBool true) s
          else if c =? 102 then read_word "false" (JBool false) s
          else if c =? 110 then read_word "null" JNull s
          else read_number s
      end
  end

with parse_elements (fuel : nat) (s : jstring) (acc : list JValue)
  : option (JValue * jstring) :=
  match fuel with
  | O => None
  | S f =>
      match parse_value f s with
      | None => None
      | Some (v, r) =>
          match skip_ws r with
          | c :: r' =>
              if c =? 44 then parse_elements f (skip_ws r') (acc ++ [v])
              else if c =? 93 then Some (JArray (acc ++ [v]), r')
              else None
          | [] => None
          end
      end
  end

with parse_members (fuel : nat) (s : jstring) (acc : list (jstring * JValue))
  : option (JValue * jstring) :=
  match fuel with
  | O => None
  | S f =>
      match s with
      | q :: r0 =>
          if q =? 34 then
            match read_string r0 with
            | None => None
            | Some (k, r1) =>
                match skip_ws r1 with
                | c :: r2 =>
                    if c =? 58 then
                      match parse_value f (skip_ws r2) with
                      | None => None
                      | Some (v, r3) =>
                          match skip_ws r3 with
                          | d :: r4 =>
                              if d =? 44 then
                                parse_members f (skip_ws r4) (obj_set acc k v)
                              else if d =? 125 then
                                Some (JObject (obj_set acc k v), r4)
                              else None
                          | [] => None
                          end
                      end
                    else None
                | [] => None
                end
            end
          else None
      | [] => None
      end
  end.

Definition fuel_for (s : jstring) : nat := 2 * List.length s + 1.

(** [JSON.parse(text)]: [None] is the SyntaxError. *)
Definition JSON_parse (text : jstring) : option JValue :=
  match parse_value (fuel_for text) (skip_ws text) with
  | Some (v, r) =>
      match skip_ws r with
      | [] => Some v
      | _ :: _ => None
      end
  | None => None
  end.

End Json.
Import Json.

(** [!v] on a parsed value.  A number is falsy when its double is zero:
    when the decimal is zero, or so small that it rounds to zero (at
    most 2^-1075, half the least subnormal, the tie going to zero). *)
Definition number_is_zero (m e : Z) : bool :=
  ((m =? 0) || ((e <? 0) && (Z.abs m * 2 ^ 1075 <=? 10 ^ (- e))))%Z.

Definition truthy (v : JValue) : bool :=
  match v with
  | JNull => false
  | JBool b => b
  | JNumber m e => negb (number_is_zero m e)
  | JString s => JsString.truthy s
  | JArray _ => true
  | JObject _ => true
  end.

(** The integer a number is, if it is one. *)
Definition as_integer (v : JValue) : option Z :=
  match v with
  | JNumber m e =>
      if (0 <=? e)%Z then Some (m * 10 ^ e)%Z
      else if (m mod 10 ^ (- e) =? 0)%Z then Some (m / 10 ^ (- e))%Z
      else None
  | _ => None
  end.

(* ================================================================== *)
(** ** The AI gateway: requests, responses, outcomes *)
(* ================================================================== *)

(** The prompt templates and system instructions are fixed texts of
    [geminiService.ts]; no operation inspects them, so they are kept by
    name, with the values interpolated into them. *)
Inductive Prompt : Type :=
| DiseasePrompt
| SoilPrompt
| SeedPrompt
| NutrientPrompt
| WeatherPrompt (location : jstring)
| TranslatePrompt (text : jstring) (targetLanguage : string).

Inductive Instruction : Type :=
| SYSTEM_INSTRUCTION
| GARDENING_MASTER_INSTRUCTION
| SOIL_ANALYSER_INSTRUCTION
| SEED_ANALYSER_INSTRUCTION
| NUTRIENT_ANALYSER_INSTRUCTION
| SOIL_EXPERT_CHAT_INSTRUCTION.

Record InlineData := { mimeType : string; data : jstring }.

Inductive Part : Type :=
| inlineData (d : InlineData)
| textPart (p : Prompt).

Inductive Contents : Type :=
| Parts (parts : list Part)
| PromptOnly (p : Prompt).

Inductive Tool : Type := googleSearch.

Record GenerateConfig := {
  systemInstruction : option Instruction;
  responseMimeType : option string;
  tools : list Tool
}.

Record GenerateContentParams := {
  model : string;
  contents : Contents;
  config : GenerateConfig
}.

Inductive Role : Type := user | model_role.

Record Turn := { role : Role; turn_text : jstring }.

(** The parameters of [ai.chats.create]: [chat_history] is its [history]
    key, the turns the new session starts from. *)
Record ChatCreateParams := {
  chat_model : string;
  chat_systemInstruction : Instruction;
  chat_history : option (list Turn)
}.

Inductive Request : Type :=
| GenerateContent (p : GenerateContentParams)
| SendMessage (session : ChatCreateParams) (message : jstring).

(** What the service is given as conversation by a chat request: the
    turns the session was created with, then the new user message. *)
Definition request_context (r : Request) : list Turn :=
  match r with
  | SendMessage session message =>
      match chat_history session with
      | Some h => h
      | None => []
      end ++ [{| role := user; turn_text := message |}]
  | GenerateContent _ => []
  end.

Definition request_instruction (r : Request) : option Instruction :=
  match r with
  | SendMessage session _ => Some (chat_systemInstruction session)
  | GenerateContent p => systemInstruction (config p)
  end.

Record WebSource := { uri : option jstring; title : option jstring }.
Record GroundingChunk := { web : option WebSource }.
Record GroundingMetadata := { groundingChunks : option (list GroundingChunk) }.
Record Candidate := { groundingMetadata : option GroundingMetadata }.

Record Response := {
  text : option jstring;                  (* response.text *)
  candidates : option (list Candidate)    (* response.candidates *)
}.

(** The outcome of one call: the promise is rejected with whatever the
    client library threw (service unreachable, malformed HTTP reply),
    or fulfilled with a response. *)
Inductive GwOutcome : Type :=
| Rejects (reason : jstring)
| Replies (r : Response).

(* ================================================================== *)
(** ** Exceptions, console and the computation monad *)
(* ================================================================== *)

(** What is thrown: an [Error] made by this code with its message, the
    [SyntaxError] of [JSON.parse], the error object that the client
    library rejected the gateway call with, or whatever else the
    platform or a callback of the parent component throws, by its
    description. *)
Inductive Exn : Type :=
| Error (message : string)
| SyntaxError
| GatewayError (reason : jstring)
| Other (what : string).

Inductive LogArg : Type :=
| LStr (s : string)
| LText (t : jstring)
| LExn (e : Exn).

Record HistoryItem := {
  id : jstring;
  timestamp : Z;
  type : string;
  plantName : string;
  imageUrl : jstring;
  nutrientData : JValue
}.

Record World := {
  console : list (list LogArg);     (* console.error lines, oldest first *)
  sent : list Request;              (* requests sent, oldest first *)
  added : list HistoryItem          (* items onAddToHistory took, oldest first *)
}.

Definition world0 : World := {| console := []; sent := []; added := [] |}.

Inductive Res (A : Type) : Type :=
| Returned (a : A)
| Thrown (e : Exn).
Arguments Returned {A} a.
Arguments Thrown {A} e.

Definition M (A : Type) : Type := World -> Res A * World.

Definition ret {A} (a : A) : M A := fun w => (Returned a, w).
Definition throw {A} (e : Exn) : M A := fun w => (Thrown e, w).

Definition bind {A B} (m : M A) (k : A -> M B) : M B :=
  fun w =>
    match m w with
    | (Returned a, w') => k a w'
    | (Thrown e, w') => (Thrown e, w')
    end.

Definition try_catch {A} (m : M A) (handler : Exn -> M A) : M A :=
  fun w =>
    match m w with
    | (Returned a, w') => (Returned a, w')
    | (Thrown e, w') => handler e w'
    end.

Notation "x <- m ;; k" := (bind m (fun x => k))
  (at level 61, m at next level, right associativity).
Notation "m ;;; k" := (bind m (fun _ => k))
  (at level 61, right associativity).

Definition console_error (args : list LogArg) : M unit :=
  fun w => (Returned tt,
            {| console := console w ++ [args]; sent := sent w; added := added w |}).

Definition JSON_parse_m (t : jstring) : M JValue :=
  match JSON_parse t with
  | Some v => ret v
  | None => throw SyntaxError
  end.

(** [!text] for [response.text], a string or [undefined]. *)
Definition falsy_text (t : option jstring) : bool :=
  match t with
  | Some s => negb (JsString.truthy s)
  | None => true
  end.

(** The string that [text] is, once [!text] is known to be false. *)
Definition the_text (t : option jstring) : jstring :=
  match t with
  | Some s => s
  | None => []
  end.

(** [text || dflt] *)
Definition text_or (t : option jstring) (dflt : jstring) : jstring :=
  match t with
  | Some s => if JsString.truthy s then s else dflt
  | None => dflt
  end.

(* ================================================================== *)
(** ** services/geminiService.ts *)
(* ================================================================== *)

Section Service.

(** The remote service behind the shared client [ai]. *)
Variable ai : Request -> GwOutcome.

Definition call (r : Request) : M Response :=
  fun w =>
    let w' := {| console := console w; sent := sent w ++ [r]; added := added w |} in
    match ai r with
    | Rejects reason => (Thrown (GatewayError reason), w')
    | Replies resp => (Returned resp, w')
    end.

(** [ai.models.generateContent(params)] *)
Definition generateContent (p : GenerateContentParams) : M Response :=
  call (GenerateContent p).

(** [ai.chats.create(params).sendMessage({ message })] *)
Definition sendMessage (session : ChatCreateParams) (message : jstring)
  : M Response :=
  call (SendMessage session message).

Definition image_request (prompt : Prompt) (instruction : Instruction)
    (base64Image : jstring) : GenerateContentParams :=
  {| model := "gemini-3-flash-preview";
     contents := Parts [ inlineData {| mimeType := "image/jpeg";
                                       data := base64Image |};
                         textPart prompt ];
     config := {| systemInstruction := Some instruction;
                  responseMimeType := Some "application/json"%string;
                  tools := [] |} |}.

Definition analyzePlantImage (base64Image : jstring) : M JValue :=
  response <- generateContent
                (image_request DiseasePrompt SYSTEM_INSTRUCTION base64Image) ;;
  let text := text response in
  if falsy_text text then throw (Error "No response from AI")
  else
    try_catch (JSON_parse_m (the_text text))
      (fun err =>
         console_error [LStr "Failed to parse AI response:"; LText (the_text text)] ;;;
         throw (Error "Invalid response format from AI")).

Definition analyzeSoilReport (base64Image : jstring) : M JValue :=
  response <- generateContent
                (image_request SoilPrompt SOIL_ANALYSER_INSTRUCTION base64Image) ;;
  let text := text response in
  if falsy_text text then throw (Error "No response from AI")
  else
    try_catch (JSON_parse_m (the_text text))
      (fun err =>
         console_error [LStr "Failed to parse soil report:"; LText (the_text text)] ;;;
         throw (Error "Invalid response format from AI")).

Definition analyzeSeedImage (base64Image : jstring) : M JValue :=
  response <- generateContent
                (image_request SeedPrompt SEED_ANALYSER_INSTRUCTION base64Image) ;;
  let text := text response in
  if falsy_text text then throw (Error "No response from AI")
  else
    try_catch (JSON_parse_m (the_text text))
      (fun err =>
         console_error [LStr "Failed to parse seed report:"; LText (the_text text)] ;;;
         throw (Error "Invalid response format from AI")).

Definition analyzePlantNutrients (base64Image : jstring) : M JValue :=
  response <- generateContent
                (image_request NutrientPrompt NUTRIENT_ANALYSER_INSTRUCTION
                   base64Image) ;;
  let text := text response in
  if falsy_text text then throw (Error "No response from AI")
  else
    try_catch (JSON_parse_m (the_text text))
      (fun err =>
         console_error [LStr "Failed to parse nutrient report:"; LText (the_text text)] ;;;
         throw (Error "Invalid response format from AI")).

(** The object [{ data, groundingMetadata }] that [getWeatherDetails]
    returns; [weather_data] is [null] ([JNull]) unless the parse
    succeeds. *)
Record WeatherDetails := {
  weather_data : JValue;
  weather_groundingMetadata : option GroundingMetadata
}.

(** [response.candidates?.[0]?.groundingMetadata] *)
Definition first_groundingMetadata (r : Response) : option GroundingMetadata :=
  match candidates r with
  | Some (c :: _) => groundingMetadata c
  | _ => None
  end.

Definition getWeatherDetails (location : jstring) : M WeatherDetails :=
  response <- generateContent
                {| model := "gemini-3-flash-preview";
                   contents := PromptOnly (WeatherPrompt location);
                   config := {| systemInstruction := None;
                                responseMimeType := Some "application/json"%string;
                                tools := [googleSearch] |} |} ;;
  let data := JNull in
  let text := text_or (text response) (dq "{}") in
  data <- try_catch (JSON_parse_m text)
            (fun e =>
               console_error [LStr "Failed to parse weather JSON"; LExn e] ;;;
               ret data) ;;
  ret {| weather_data := data;
         weather_groundingMetadata := first_groundingMetadata response |}.

(** The chat functions.  The parameter [history] is not used in any
    of the three bodies: the session is created with a model and a
    system instruction only. *)
Definition chatWithBotanist (history : list Turn) (newMessage : jstring)
  : M (option jstring) :=
  let chat := {| chat_model := "gemini-3-flash-preview";
                 chat_systemInstruction := SYSTEM_INSTRUCTION;
                 chat_history := None |} in
  response <- sendMessage chat newMessage ;;
  ret (text response).

Definition chatWithGardenMaster (history : list Turn) (newMessage : jstring)
  : M (option jstring) :=
  let chat := {| chat_model := "gemini-3-flash-preview";
                 chat_systemInstruction := GARDENING_MASTER_INSTRUCTION;
                 chat_history := None |} in
  response <- sendMessage chat newMessage ;;
  ret (text response).

Definition chatWithSoilExpert (history : list Turn) (newMessage : jstring)
  : M (option jstring) :=
  let chat := {| chat_model := "gemini-3-flash-preview";
                 chat_systemInstruction := SOIL_EXPERT_CHAT_INSTRUCTION;
                 chat_history := None |} in
  response <- sendMessage chat newMessage ;;
  ret (text response).

Definition translateText (t : jstring) (targetLanguage : string)
  : M (option jstring) :=
  response <- generateContent
                {| model := "gemini-3-flash-preview";
                   contents := PromptOnly (TranslatePrompt t targetLanguage);
                   config := {| systemInstruction := None;
                                responseMimeType := None;
                                tools := [] |} |} ;;
  ret (text response).

(* ================================================================ *)
(** ** components/NutrientAnalyzer.tsx *)
(* ================================================================ *)

Record NutrientAnalyzerState := {
  isAnalyzing : bool;
  result : option JValue;
  currentImage : option jstring;
  error : option string
}.

Definition setIsAnalyzing (b : bool) (st : NutrientAnalyzerState) :=
  {| isAnalyzing := b; result := result st;
     currentImage := currentImage st; error := error st |}.
Definition setResult (r : option JValue) (st : NutrientAnalyzerState) :=
  {| isAnalyzing := isAnalyzing st; result := r;
     currentImage := currentImage st; error := error st |}.
Definition setCurrentImage (i : option jstring) (st : NutrientAnalyzerState) :=
  {| isAnalyzing := isAnalyzing st; result := result st;
     currentImage := i; error := error st |}.
Definition setError (e : option string) (st : NutrientAnalyzerState) :=
  {| isAnalyzing := isAnalyzing st; result := result st;
     currentImage := currentImage st; error := e |}.

(** What a run of [performAnalysis] meets outside the component:
    what [crypto.randomUUID()] does (it returns an identifier, or it
    throws, as where the page has no [crypto.randomUUID]), what
    [Date.now()] gives, and what the parent's [onAddToHistory] does
    with an item ([None]: it takes the item and returns; [Some e]: it
    throws [e]). *)
Record Env := {
  crypto_randomUUID : Res jstring;
  Date_now : Z;
  onAddToHistory_prop : HistoryItem -> option Exn
}.

(** The call [onAddToHistory(item)]: an item that the parent took is
    recorded. *)
Definition onAddToHistory (env : Env) (item : HistoryItem) : M unit :=
  fun w =>
    match onAddToHistory_prop env item with
    | None =>
        (Returned tt,
         {| console := console w; sent := sent w; added := added w ++ [item] |})
    | Some e => (Thrown e, w)
    end.

Definition nutrient_error_message : string :=
  "Failed to analyze nutrients. Please ensure the plant leaf is clearly visible.".

(** The [catch] block of [performAnalysis]. *)
Definition performAnalysis_catch (err : Exn)
    (st : NutrientAnalyzerState) (w : World) : NutrientAnalyzerState * World :=
  let '(_, w1) := console_error [LStr "Nutrient analysis error:"; LExn err] w in
  (setError (Some nutrient_error_message) st, w1).

(** [performAnalysis(base64)].  Everything between [try] and [catch]
    can throw into the [catch] block: the analysis call, the test of
    its value, and, after [setResult(data)], [crypto.randomUUID()] and
    the call of [onAddToHistory]. *)
Definition performAnalysis (env : Env) (base64 : jstring)
    (st : NutrientAnalyzerState) (w : World) : NutrientAnalyzerState * World :=
  let st := setError None (setResult None (setIsAnalyzing true st)) in
  let '(st, w) :=
    match analyzePlantNutrients base64 w with
    | (Returned data, w1) =>
        if negb (truthy data) then
          performAnalysis_catch (Error "Nutrient analysis returned empty data.") st w1
        else
          let st1 := setResult (Some data) st in
          match crypto_randomUUID env with
          | Returned uuid =>
              let historyItem :=
                {| id := uuid;
                   timestamp := Date_now env;
                   type := "nutrient-analysis";
                   plantName := "Plant Nutrient Check";
                   imageUrl := base64;
                   nutrientData := data |} in
              match onAddToHistory env historyItem w1 with
              | (Returned _, w2) => (st1, w2)
              | (Thrown err, w2) => performAnalysis_catch err st1 w2
              end
          | Thrown err => performAnalysis_catch err st1 w1
          end
    | (Thrown err, w1) => performAnalysis_catch err st w1
    end in
  (setIsAnalyzing false st, w).

(** A selected file, as [FileReader.readAsDataURL] sees it: its media
    type and its content in base64. *)
Record File := { file_type : jstring; file_base64 : jstring }.

Definition readAsDataURL (f : File) : jstring :=
  lit "data:" ++ file_type f ++ lit ";base64," ++ file_base64 f.

(** [s.split(',')] *)
Fixpoint split_comma (s : jstring) (cur : jstring) : list jstring :=
  match s with
  | [] => [cur]
  | c :: r => if c =? 44 then cur :: split_comma r [] else split_comma r (cur ++ [c])
  end.

(** [handleFileUpload]: the [onloadend] callback of the reader.  When
    the split has no second piece [base64String] is [undefined]; a
    data URL always has one (lemma [data_url_has_payload]). *)
Definition handleFileUpload (env : Env) (file : option File)
    (st : NutrientAnalyzerState) (w : World) : NutrientAnalyzerState * World :=
  match file with
  | Some f =>
      match nth_error (split_comma (readAsDataURL f) []) 1 with
      | Some base64String =>
          performAnalysis env base64String
            (setCurrentImage (Some base64String) st) w
      | None => (st, w)
      end
  | None => (st, w)
  end.


(** The condition of the "Detected Deficiencies" card on a result
    whose [deficiencies] is an array or is missing. *)
Definition deficiency_list_shown (r : JValue) : option bool :=
  match get r (lit "deficiencies") with
  | None => Some false
  | Some JNull => Some false
  | Some (JArray []) => Some false
  | Some (JArray (JString s :: _)) => Some (negb (JsString.eqb s (lit "None")))
  | Some (JArray (_ :: _)) => Some true
  | Some _ => None
  end.

(* ================================================================ *)
(** ** components/Weather.tsx *)
(* ================================================================ *)

Record WeatherState := {
  city : jstring;
  weatherData : option JValue;
  shownMetadata : option GroundingMetadata;   (* state groundingMetadata *)
  loading : bool;
  weather_error : option string
}.

Definition performSearch (query : jstring) (st : WeatherState) (w : World)
  : WeatherState * World :=
  let st := {| city := city st; weatherData := None; shownMetadata := None;
               loading := true; weather_error := None |} in
  let '(st, w) :=
    match getWeatherDetails query w with
    | (Returned r, w1) =>
        if truthy (weather_data r) then
          ({| city := city st;
              weatherData := Some (weather_data r);
              shownMetadata := weather_groundingMetadata r;
              loading := loading st;
              weather_error := weather_error st |}, w1)
        else
          ({| city := city st; weatherData := weatherData st;
              shownMetadata := shownMetadata st; loading := loading st;
              weather_error :=
                Some "Could not parse weather data. Please try again."%string |},
           w1)
    | (Thrown err, w1) =>
        ({| city := city st; weatherData := weatherData st;
            shownMetadata := shownMetadata st; loading := loading st;
            weather_error :=
              Some "Could not fetch weather data. Please try again."%string |},
         w1)
    end in
  ({| city := city st; weatherData := weatherData st;
      shownMetadata := shownMetadata st; loading := false;
      weather_error := weather_error st |}, w).

(** The "Verified Sources" block.  [hostname u] is
    [new URL(u).hostname]; [None] when the constructor throws. *)
Variable hostname : jstring -> option jstring.

Record Anchor := { key : nat; href : jstring; label : jstring }.

(** [chunk.web?.uri], when truthy. *)
Definition resolvable_uri (c : GroundingChunk) : option jstring :=
  match web c with
  | Some ws =>
      match uri ws with
      | Some u => if JsString.truthy u then Some u else None
      | None => None
      end
  | None => None
  end.

(** [chunk.web.title || new URL(chunk.web.uri).hostname] *)
Definition link_label (c : GroundingChunk) (u : jstring) : option jstring :=
  match web c with
  | Some ws =>
      match title ws with
      | Some t => if JsString.truthy t then Some t else hostname u
      | None => hostname u
      end
  | None => hostname u
  end.

(** The anchors of [groundingChunks.map(...)], from index [i] on:
    nothing is rendered for a chunk without a truthy uri.  [None]: the
    rendering threw. *)
Fixpoint render_chunks (i : nat) (chunks : list GroundingChunk)
  : option (list Anchor) :=
  match chunks with
  | [] => Some []
  | c :: rest =>
      match resolvable_uri c with
      | None => render_chunks (S i) rest
      | Some u =>
          match link_label c u with
          | None => None
          | Some l =>
              match render_chunks (S i) rest with
              | Some anchors => Some ({| key := i; href := u; label := l |} :: anchors)
              | None => None
              end
          end
      end
  end.

(** [groundingMetadata?.groundingChunks && (...)] *)
Definition render_sources (st : WeatherState) : option (list Anchor) :=
  match shownMetadata st with
  | Some gm =>
      match groundingChunks gm with
      | Some chunks => render_chunks 0 chunks
      | None => Some []
      end
  | None => Some []
  end.

End Service.

(* ================================================================== *)
(** ** Kinds, stubs, messages and the inputs of the examples *)
(* ================================================================== *)

(** The four kinds that take an image. *)
Inductive ImageKind : Type := Disease | Soil | Seed | Nutrient.

Definition analyze (ai : Request -> GwOutcome) (k : ImageKind)
  : jstring -> M JValue :=
  match k with
  | Disease => analyzePlantImage ai
  | Soil => analyzeSoilReport ai
  | Seed => analyzeSeedImage ai
  | Nutrient => analyzePlantNutrients ai
  end.

Definition prompt_of (k : ImageKind) : Prompt :=
  match k with
  | Disease => DiseasePrompt
  | Soil => SoilPrompt
  | Seed => SeedPrompt
  | Nutrient => NutrientPrompt
  end.

Definition instruction_of (k : ImageKind) : Instruction :=
  match k with
  | Disease => SYSTEM_INSTRUCTION
  | Soil => SOIL_ANALYSER_INSTRUCTION
  | Seed => SEED_ANALYSER_INSTRUCTION
  | Nutrient => NUTRIENT_ANALYSER_INSTRUCTION
  end.

Definition parse_log_label (k : ImageKind) : string :=
  match k with
  | Disease => "Failed to parse AI response:"
  | Soil => "Failed to parse soil report:"
  | Seed => "Failed to parse seed report:"
  | Nutrient => "Failed to parse nutrient report:"
  end.

(** The request of kind [k] for an image. *)
Definition request_of (k : ImageKind) (base64Image : jstring) : Request :=
  GenerateContent (image_request (prompt_of k) (instruction_of k) base64Image).

Definition weather_request (location : jstring) : Request :=
  GenerateContent
    {| model := "gemini-3-flash-preview";
       contents := PromptOnly (WeatherPrompt location);
       config := {| systemInstruction := None;
                    responseMimeType := Some "application/json"%string;
                    tools := [googleSearch] |} |}.

(** The top-level fields that the prompt of each kind asks for. *)
Definition required_fields (k : ImageKind) : list jstring :=
  match k with
  | Disease => map lit ["plantName"; "diseaseName"; "severity"; "symptoms";
                        "cures"; "purchaseLinks"; "prevention"]%string
  | Soil => map lit ["phValue"; "nitrogen"; "phosphorus"; "potassium";
                     "organicMatter"; "suitableCrops"; "improvementTips"]%string
  | Seed => map lit ["seedName"; "plantName"; "description";
                     "cultivationPlaces"; "bestSoil"; "growthTips"]%string
  | Nutrient => map lit ["healthScore"; "deficiencies"; "symptoms";
                         "recommendations"]%string
  end.

Definition has_field (v : JValue) (k : jstring) : bool :=
  match get v k with Some _ => true | None => false end.

Definition has_required_fields (k : ImageKind) (v : JValue) : bool :=
  forallb (has_field v) (required_fields k).

(** The two errors of the image analysis functions. *)
Definition no_response : Exn := Error "No response from AI".
Definition invalid_format : Exn := Error "Invalid response format from AI".

Definition sent_to (r : Request) (w : World) : World :=
  {| console := console w; sent := sent w ++ [r]; added := added w |}.

Definition logged (line : list LogArg) (w : World) : World :=
  {| console := console w ++ [line]; sent := sent w; added := added w |}.

(** Stubs of the service. *)
Definition replies_text (t : jstring) : Request -> GwOutcome :=
  fun _ => Replies {| text := Some t; candidates := None |}.
Definition replies_nothing : Request -> GwOutcome :=
  fun _ => Replies {| text := None; candidates := None |}.
Definition unreachable (reason : jstring) : Request -> GwOutcome :=
  fun _ => Rejects reason.

Inductive Persona : Type := Botanist | GardenMaster | SoilExpert.

Definition chat (ai : Request -> GwOutcome) (persona : Persona)
  : list Turn -> jstring -> M (option jstring) :=
  match persona with
  | Botanist => chatWithBotanist ai
  | GardenMaster => chatWithGardenMaster ai
  | SoilExpert => chatWithSoilExpert ai
  end.

(** A conversation of two turns, and the message that follows it. *)
Definition prior_turns : list Turn :=
  [ {| role := user; turn_text := lit "My tomato leaves have brown spots" |};
    {| role := model_role; turn_text := lit "That looks like early blight." |} ].
Definition follow_up : jstring := lit "How do I treat it?".

Definition chat_persona (persona : Persona) : Instruction :=
  match persona with
  | Botanist => SYSTEM_INSTRUCTION
  | GardenMaster => GARDENING_MASTER_INSTRUCTION
  | SoilExpert => SOIL_EXPERT_CHAT_INSTRUCTION
  end.

Definition has_comma (s : jstring) : bool := existsb (fun c => c =? 44) s.

Definition png_upload : File :=
  {| file_type := lit "image/png"; file_base64 := lit "iVBORw0KGgoAAAANSUhEUgAAAAEAAAAB" |}.

Definition history_item (uuid : jstring) (now : Z) (base64 : jstring)
    (v : JValue) : HistoryItem :=
  {| id := uuid; timestamp := now; type := "nutrient-analysis";
     plantName := "Plant Nutrient Check"; imageUrl := base64;
     nutrientData := v |}.

Definition parse_message : string :=
  "Could not parse weather data. Please try again.".
Definition fetch_message : string :=
  "Could not fetch weather data. Please try again.".

Definition truncated_reply : jstring := dq "{'healthScore': 45, 'deficiencies': ['Nitro".
Definition prose_reply : jstring := lit "Sorry, I cannot analyse this image.".

Definition idle : NutrientAnalyzerState :=
  {| isAnalyzing := false; result := None; currentImage := None; error := None |}.

(** A reply of the nutrient kind with one of its four fields only. *)
Definition partial_reply : jstring := dq "{'healthScore':45}".
Definition partial_value : JValue := JObject [(lit "healthScore", JNumber 45 0)].

Definition nowhere : WeatherState :=
  {| city := []; weatherData := None; shownMetadata := None;
     loading := false; weather_error := None |}.

(** The links of the chunks that have one, in order. *)
Definition resolvable_uris (chunks : list GroundingChunk) : list jstring :=
  flat_map (fun c => match resolvable_uri c with
                     | Some u => [u]
                     | None => []
                     end) chunks.

Definition cited : GroundingChunk :=
  {| web := Some {| uri := Some (lit "https://weather.example/kochi");
                    title := Some (lit "Kochi forecast") |} |}.
Definition uncited : GroundingChunk :=
  {| web := Some {| uri := None; title := Some (lit "Monsoon notes") |} |}.

Definition weather_reply : jstring :=
  dq "{'locationName':'Kochi, Kerala','current':{'temp':'30C','condition':'Rainy','humidity':'80%','wind':'12 km/h'},'forecast':[],'risks':{'floodProbability':'Low','cycloneProbability':'Low','details':'none'},'farmingTip':'Delay sowing.'}".

Definition grounded_reply : Request -> GwOutcome :=
  fun _ => Replies
    {| text := Some weather_reply;
       candidates := Some [ {| groundingMetadata :=
                                 Some {| groundingChunks := Some [cited; uncited] |} |} ] |}.

Definition no_hostname : jstring -> option jstring := fun _ => None.

(** The integer [n] in decimal, as [String(n)] writes it. *)
Definition decimal (n : Z) : jstring :=
  lit (DecimalString.NilEmpty.string_of_int (Z.to_int n)).

Definition uint_chars (u : Decimal.uint) : jstring :=
  lit (DecimalString.NilEmpty.string_of_uint u).

(** The value of a run of digits read after the value [acc]. *)
Fixpoint uint_acc (u : Decimal.uint) (acc : N) : N :=
  match u with
  | Decimal.Nil => acc
  | Decimal.D0 u' => uint_acc u' (acc * 10 + 0)
  | Decimal.D1 u' => uint_acc u' (acc * 10 + 1)
  | Decimal.D2 u' => uint_acc u' (acc * 10 + 2)
  | Decimal.D3 u' => uint_acc u' (acc * 10 + 3)
  | Decimal.D4 u' => uint_acc u' (acc * 10 + 4)
  | Decimal.D5 u' => uint_acc u' (acc * 10 + 5)
  | Decimal.D6 u' => uint_acc u' (acc * 10 + 6)
  | Decimal.D7 u' => uint_acc u' (acc * 10 + 7)
  | Decimal.D8 u' => uint_acc u' (acc * 10 + 8)
  | Decimal.D9 u' => uint_acc u' (acc * 10 + 9)
  end.

(** A character that can stand in a string literal as it is. *)
Definition plain_char (c : code) : bool :=
  (32 <=? c) && negb (c =? 34) && negb (c =? 92).
Definition plain (s : jstring) : bool := forallb plain_char s.

(** The text does not go on as a number. *)
Definition ends_number (rest : jstring) : bool :=
  match rest with
  | [] => true
  | c :: _ =>
      match digit_val c with
      | Some _ => false
      | None => negb (c =? 46) && negb (c =? 101) && negb (c =? 69)
      end
  end.

(** A reply of the nutrient kind with the health score [n] and the one
    deficiency [s]. *)
Definition nutrient_reply (n : Z) (s : jstring) : jstring :=
  dq "{'healthScore':" ++ decimal n ++ dq ",'deficiencies':['" ++ s
    ++ dq "'],'symptoms':[],'recommendations':[]}".

Definition nutrient_value (n : Z) (s : jstring) : JValue :=
  JObject [ (lit "healthScore", JNumber n 0);
            (lit "deficiencies", JArray [JString s]);
            (lit "symptoms", JArray []);
            (lit "recommendations", JArray []) ].

(** [result.healthScore], when it is an integer. *)
Definition health_score (v : JValue) : option Z :=
  match get v (lit "healthScore") with
  | Some x => as_integer x
  | None => None
  end.

Definition stub_reply : jstring :=
  dq "{'healthScore':45,'deficiencies':['Nitrogen'],'symptoms':['yellowing leaves'],'recommendations':['apply nitrogen-rich fertilizer']}".

Definition spaced_reply : jstring :=
  dq "{ 'healthScore': 83, 'deficiencies': ['None'], 'symptoms': [], 'recommendations': [] }".

(* ================================================================== *)
(** ** More of the code: requests, the nutrient view, the weather view,
       the sidebar *)
(* ================================================================== *)

(** The [model] a request names. *)
Definition request_model (r : Request) : string :=
  match r with
  | GenerateContent p => model p
  | SendMessage session _ => chat_model session
  end.

(** The session and message of [chatWith...]; the request of
    [translateText]. *)
Definition chat_request (persona : Persona) (newMessage : jstring) : Request :=
  SendMessage {| chat_model := "gemini-3-flash-preview";
                 chat_systemInstruction := chat_persona persona;
                 chat_history := None |} newMessage.

Definition translate_request (t : jstring) (targetLanguage : string) : Request :=
  GenerateContent
    {| model := "gemini-3-flash-preview";
       contents := PromptOnly (TranslatePrompt t targetLanguage);
       config := {| systemInstruction := None;
                    responseMimeType := None;
                    tools := [] |} |}.

(** *** components/NutrientAnalyzer.tsx: the view *)

(** [error && ...] and [result && ...]: the state is shown when truthy. *)
Definition error_shown (e : option string) : bool :=
  match e with
  | Some EmptyString => false
  | Some (String _ _) => true
  | None => false
  end.

Definition result_shown (r : option JValue) : bool :=
  match r with
  | Some v => truthy v
  | None => false
  end.

(** The four blocks of the page, each under its own condition. *)
Inductive Card : Type := UploadCard | AnalyzingCard | ErrorCard | ResultCard.

Definition cards (st : NutrientAnalyzerState) : list Card :=
  (if negb (result_shown (result st)) && negb (isAnalyzing st)
      && negb (error_shown (error st)) then [UploadCard] else [])
  ++ (if isAnalyzing st then [AnalyzingCard] else [])
  ++ (if error_shown (error st) then [ErrorCard] else [])
  ++ (if result_shown (result st) then [ResultCard] else []).

(** The effect on [initialData]: an item of the nutrient type with data
    is put on screen, with its image ([imageUrl || null]). *)
Definition useEffect_initialData (initialData : option HistoryItem)
    (st : NutrientAnalyzerState) : NutrientAnalyzerState :=
  match initialData with
  | Some item =>
      if String.eqb (type item) "nutrient-analysis" && truthy (nutrientData item)
      then setCurrentImage
             (if JsString.truthy (imageUrl item) then Some (imageUrl item) else None)
             (setResult (Some (nutrientData item)) st)
      else st
  | None => st
  end.

(** The [src] of the scanned image, inside the result block:
    [currentImage && <img src=data:image/jpeg;base64,...>]. *)
Definition scanned_image_src (st : NutrientAnalyzerState) : option jstring :=
  if result_shown (result st) then
    match currentImage st with
    | Some c => if JsString.truthy c then Some (lit "data:image/jpeg;base64," ++ c)
                else None
    | None => None
    end
  else None.

(** [score >= k] for a health score that is an integer, or [undefined]
    ([None]), for which every comparison is false.  For an integer the
    comparison of its double with 80 or 50 is the comparison of the
    integer. *)
Definition score_ge (score : option Z) (k : Z) : bool :=
  match score with
  | Some n => (k <=? n)%Z
  | None => false
  end.

Definition getScoreColor (score : option Z) : string :=
  if score_ge score 80 then "text-emerald-500 border-emerald-500"
  else if score_ge score 50 then "text-yellow-500 border-yellow-500"
  else "text-red-500 border-red-500".

(** The title and the sentence under the score. *)
Definition score_title (score : option Z) : string :=
  if score_ge score 80 then "Excellent Vigor"
  else if score_ge score 50 then "Needs Attention"
  else "Critical Condition".

Definition score_sentence (score : option Z) : string :=
  if score_ge score 80 then "The plant looks healthy and robust."
  else "Deficiencies detected. Immediate action advised.".

(** *** components/Weather.tsx: the view *)

(** White space and line terminators, what [trim] removes. *)
Definition is_js_space (c : code) : bool :=
  (c =? 9) || (c =? 10) || (c =? 11) || (c =? 12) || (c =? 13) || (c =? 32)
  || (c =? 160) || (c =? 5760) || ((8192 <=? c) && (c <=? 8202))
  || (c =? 8232) || (c =? 8233) || (c =? 8239) || (c =? 8287)
  || (c =? 12288) || (c =? 65279).

Fixpoint trimStart (s : jstring) : jstring :=
  match s with
  | c :: r => if is_js_space c then trimStart r else s
  | [] => []
  end.

Definition trimEnd (s : jstring) : jstring := rev (trimStart (rev s)).

Definition trim (s : jstring) : jstring := trimEnd (trimStart s).

Definition is_digit (c : code) : bool :=
  match digit_val c with Some _ => true | None => false end.

(** [weatherData.current.temp.replace(/[^0-9.-]/g, '')], the big
    temperature of the main card.  [None]: the expression throws a
    TypeError ([current] is missing or null, or [temp] is not a
    string). *)
Definition temp_kept (c : code) : bool := is_digit c || (c =? 46) || (c =? 45).

Definition temperature_shown (weatherData : JValue) : option jstring :=
  match get weatherData (lit "current") with
  | None => None
  | Some JNull => None
  | Some current =>
      match get current (lit "temp") with
      | Some (JString t) => Some (filter temp_kept t)
      | _ => None
      end
  end.

(** [s.includes(sub)] *)
Definition starts_with (sub s : jstring) : bool :=
  match strip_prefix sub s with Some _ => true | None => false end.

Fixpoint includes (s sub : jstring) : bool :=
  starts_with sub s
  || match s with
     | [] => false
     | _ :: r => includes r sub
     end.

Inductive WeatherIcon : Type :=
| RainIcon | StormIcon | CloudIcon | SnowIcon | SunIcon | FogIcon | FairIcon.

(** The lower case of an ASCII text. *)
Definition lower_ascii (c : code) : code :=
  if (65 <=? c) && (c <=? 90) then c + 32 else c.
Definition is_ascii (s : jstring) : bool := forallb (fun c => c <? 128) s.

Section WeatherView.

Variable ai : Request -> GwOutcome.

(** [String.prototype.toLowerCase]. *)
Variable toLowerCase : jstring -> jstring.

Definition getWeatherIcon (condition : jstring) : WeatherIcon :=
  let c := toLowerCase condition in
  if includes c (lit "rain") || includes c (lit "drizzle") then RainIcon
  else if includes c (lit "storm") || includes c (lit "thunder") then StormIcon
  else if includes c (lit "cloud") then CloudIcon
  else if includes c (lit "snow") then SnowIcon
  else if includes c (lit "clear") || includes c (lit "sunny") then SunIcon
  else if includes c (lit "mist") || includes c (lit "fog") then FogIcon
  else FairIcon.

(** [handleSearch]: the submit of the form. *)
Definition handleSearch (st : WeatherState) (w : World) : WeatherState * World :=
  if negb (JsString.truthy (trim (city st))) then (st, w)
  else performSearch ai (city st) st w.

(** A coordinate is a number of the platform; [toFixed2 x] is
    [x.toFixed(2)] and [numberToString x] the text of [x] in a
    template. *)
Variable Coord : Type.
Variable toFixed2 : Coord -> jstring.
Variable numberToString : Coord -> jstring.

(** What the browser answers to [handleLocationSearch]: no
    [navigator.geolocation], the error callback (the error is kept by
    its message), the success callback, or no callback at all. *)
Inductive Geolocation : Type :=
| NoGeolocation
| PositionError (err : jstring)
| Position (latitude longitude : Coord)
| NoAnswer.

Definition location_label (latitude longitude : Coord) : jstring :=
  lit "Current Location (" ++ toFixed2 latitude ++ lit ", "
    ++ toFixed2 longitude ++ lit ")".

Definition location_query (latitude longitude : Coord) : jstring :=
  lit "latitude " ++ numberToString latitude ++ lit ", longitude "
    ++ numberToString longitude.

Definition handleLocationSearch (geo : Geolocation)
    (st : WeatherState) (w : World) : WeatherState * World :=
  match geo with
  | NoGeolocation =>
      ({| city := city st; weatherData := weatherData st;
          shownMetadata := shownMetadata st; loading := loading st;
          weather_error :=
            Some "Geolocation is not supported by your browser."%string |}, w)
  | PositionError err =>
      ({| city := []; weatherData := None;
          shownMetadata := shownMetadata st; loading := false;
          weather_error :=
            Some "Unable to retrieve your location. Please check browser permissions."%string |},
       logged [LText err] w)
  | Position latitude longitude =>
      performSearch ai (location_query latitude longitude)
        {| city := location_label latitude longitude; weatherData := None;
           shownMetadata := shownMetadata st; loading := true;
           weather_error := None |} w
  | NoAnswer =>
      ({| city := lit "Detecting location..."; weatherData := None;
          shownMetadata := shownMetadata st; loading := true;
          weather_error := None |}, w)
  end.

(** The "Verified Sources" block where it stands, inside
    [weatherData && (...)]. *)
Variable hostname : jstring -> option jstring.

Definition sources_block (st : WeatherState) : option (list Anchor) :=
  if result_shown (weatherData st) then render_sources hostname st else Some [].

End WeatherView.

(** *** components/Sidebar.tsx *)

(** The entries of the navigation: identifier and label. *)
Definition navItems : list (string * string) :=
  [ ("home", "Home"); ("nutrient-analyzer", "Nutrient Analysis");
    ("garden-care", "Garden Care"); ("soil-analyzer", "Soil Analyzer");
    ("seed-detector", "Seed Detector"); ("weather", "Weather & Risks");
    ("reminders", "Reminders"); ("history", "History");
    ("account", "Account") ]%string.

(** The entries drawn as the current one: [currentView === item.id]. *)
Definition highlighted (currentView : string) : list (string * string) :=
  filter (fun item => String.eqb currentView (fst item)) navItems.

(** The clicks of the sidebar and the callbacks they call. *)
Inductive SidebarClick : Type :=
| ClickNav (item : string * string)
| ClickBackdrop
| ClickClose
| ClickUser.

Inductive SidebarCall : Type :=
| onViewChange (view : string)
| onCloseMobile.

Definition sidebar_click (c : SidebarClick) : SidebarCall :=
  match c with
  | ClickNav item => onViewChange (fst item)
  | ClickBackdrop => onCloseMobile
  | ClickClose => onCloseMobile
  | ClickUser => onViewChange "account"
  end.

(** Examples. *)
Definition jpeg_upload : File :=
  {| file_type := lit "image/jpeg"; file_base64 := lit "/9j/4AAQSkZJRgABAQAAAQABAAD" |}.

Definition ascii_lower (s : jstring) : jstring := map lower_ascii s.

(** The weather view with the text [t] typed in the city field. *)
Definition typed (t : string) : WeatherState :=
  {| city := lit t; weatherData := None; shownMetadata := None;
     loading := false; weather_error := None |}.

(** A history to which [item] has been added. *)
Definition taken (item : HistoryItem) (w : World) : World :=
  {| console := console w; sent := sent w; added := added w ++ [item] |}.

(** Three surroundings of the component: one where
    [crypto.randomUUID()] gives [uuid], [Date.now()] gives [now] and
    the parent takes every item; a page without [crypto.randomUUID]
    (it is defined in secure contexts only), where the call throws a
    [TypeError]; and a parent whose callback throws. *)
Definition quiet (uuid : jstring) (now : Z) : Env :=
  {| crypto_randomUUID := Returned uuid;
     Date_now := now;
     onAddToHistory_prop := fun _ => None |}.



(** The item that the run on [stub_reply] adds to the history. *)
Definition stub_item : HistoryItem :=
  history_item (lit "id-1") 1%Z (lit "AAAA")
    (match JSON_parse stub_reply with Some v => v | None => JNull end).

(* ================================================================== *)
(** ** Properties *)
(* ================================================================== *)

(* ================================================================== *)
(** ** [JSON.parse]: more fuel changes nothing *)
(* ================================================================== *)

Lemma parse_fuel_mono (f : nat) :
  (forall s x, parse_value f s = Some x ->
               forall f', (f <= f')%nat -> parse_value f' s = Some x) /\
  (forall s acc x, parse_elements f s acc = Some x ->
                   forall f', (f <= f')%nat -> parse_elements f' s acc = Some x) /\
  (forall s acc x, parse_members f s acc = Some x ->
                   forall f', (f <= f')%nat -> parse_members f' s acc = Some x).
Proof.
  induction f as [|f (IHv & IHe & IHm)].
  - repeat split; intros; discriminate.
  - split; [|split].
    + intros s x H [|f'] Hle; [lia|]. apply le_S_n in Hle.
      simpl in H |- *.
      destruct s as [|c r]; [discriminate|].
      destruct (c =? 123).
      { destruct (skip_ws r) as [|d r']; [discriminate|].
        destruct (d =? 125); [exact H|]. eapply IHm; eassumption. }
      destruct (c =? 91).
      { destruct (skip_ws r) as [|d r']; [discriminate|].
        destruct (d =? 93); [exact H|]. eapply IHe; eassumption. }
      exact H.
    + intros s acc x H [|f'] Hle; [lia|]. apply le_S_n in Hle.
      simpl in H |- *.
      destruct (parse_value f s) as [[v r]|] eqn:E; [|discriminate].
      rewrite (IHv _ _ E _ Hle).
      destruct (skip_ws r) as [|c r']; [discriminate|].
      destruct (c =? 44); [eapply IHe; eassumption|]. exact H.
    + intros s acc x H [|f'] Hle; [lia|]. apply le_S_n in Hle.
      simpl in H |- *.
      destruct s as [|q r0]; [discriminate|].
      destruct (q =? 34); [|discriminate].
      destruct (read_string r0) as [[k r1]|]; [|discriminate].
      destruct (skip_ws r1) as [|c r2]; [discriminate|].
      destruct (c =? 58); [|discriminate].
      destruct (parse_value f (skip_ws r2)) as [[v r3]|] eqn:E; [|discriminate].
      rewrite (IHv _ _ E _ Hle).
      destruct (skip_ws r3) as [|d r4]; [discriminate|].
      destruct (d =? 44); [eapply IHm; eassumption|]. exact H.
Qed.

Lemma JSON_parse_from_fuel (f : nat) (s : jstring) (v : JValue) (r : jstring) :
  parse_value f (skip_ws s) = Some (v, r) ->
  skip_ws r = [] ->
  (f <= fuel_for s)%nat ->
  JSON_parse s = Some v.
Proof.
  intros H Hr Hle. unfold JSON_parse.
  rewrite (proj1 (parse_fuel_mono f) _ _ H _ Hle), Hr. reflexivity.
Qed.

(** Every successful read takes at least one character. *)
Lemma skip_ws_length (s : jstring) :
  (List.length (skip_ws s) <= List.length s)%nat.
Proof.
  induction s as [|c s IH]; simpl; [lia|]. destruct (is_ws c); simpl; lia.
Qed.

Lemma read_string_length (n : nat) :
  forall s t r, (List.length s <= n)%nat ->
                read_string s = Some (t, r) -> (List.length r < List.length s)%nat.
Proof.
  induction n as [|n IH]; intros s t r Hn H.
  - destruct s; [discriminate | simpl in Hn; lia].
  - destruct s as [|c s]; [discriminate|]. simpl in Hn, H.
    assert (P : forall u s', (List.length s' <= n)%nat ->
                             push u (read_string s') = Some (t, r) ->
                             (List.length r < List.length s')%nat).
    { intros u s' Hs' Hp. destruct (read_string s') as [[t' r']|] eqn:E; [|discriminate].
      injection Hp as _ <-. eapply IH; eassumption. }
    destruct (c =? 34).
    { injection H as _ <-. simpl. lia. }
    destruct (c =? 92).
    { destruct s as [|e r1]; [discriminate|].
      destruct (e =? 117).
      - destruct r1 as [|h1 [|h2 [|h3 [|h4 r2]]]]; try discriminate.
        destruct (hex4 h1 h2 h3 h4); [|discriminate].
        apply P in H; simpl in *; lia.
      - destruct (unescape e); [|discriminate].
        apply P in H; simpl in *; lia. }
    destruct (c <? 32); [discriminate|].
    apply P in H; simpl in *; lia.
Qed.

Lemma read_digits_length (s : jstring) :
  forall acc cnt v k r, read_digits s acc cnt = (v, k, r) ->
                        (List.length r <= List.length s)%nat.
Proof.
  induction s as [|c s IH]; intros acc cnt v k r H; simpl in H.
  - injection H as _ _ <-. simpl; lia.
  - destruct (digit_val c).
    + apply IH in H. simpl; lia.
    + injection H as _ _ <-. simpl; lia.
Qed.

Lemma read_unsigned_length (neg : bool) (s : jstring) (v : JValue) (r : jstring) :
  read_unsigned neg s = Some (v, r) -> (List.length r < List.length s)%nat.
Proof.
  unfold read_unsigned. intros H.
  destruct (read_int s) as [[i s2]|] eqn:Ei; [|discriminate].
  assert (L2 : (List.length s2 < List.length s)%nat).
  { unfold read_int in Ei. destruct s as [|c s']; [discriminate|].
    destruct (c =? 48); [injection Ei as _ <-; simpl; lia|].
    destruct (digit_val c); [|discriminate].
    destruct (read_digits s' n 0) as [[i' k'] r'] eqn:Ed.
    injection Ei as _ <-. apply read_digits_length in Ed. simpl; lia. }
  destruct (read_frac i s2) as [[[m k] s3]|] eqn:Ef; [|discriminate].
  assert (L3 : (List.length s3 <= List.length s2)%nat).
  { unfold read_frac in Ef. destruct s2 as [|c s']; [injection Ef as _ _ <-; lia|].
    destruct (c =? 46).
    - destruct (read_digits s' i 0) as [[f' k'] r'] eqn:Ed.
      destruct (k' =? 0); [discriminate|]. injection Ef as _ _ <-.
      apply read_digits_length in Ed. simpl; lia.
    - injection Ef as _ _ <-. lia. }
  destruct (read_exp s3) as [[x s4]|] eqn:Ee; [|discriminate].
  assert (L4 : (List.length s4 <= List.length s3)%nat).
  { unfold read_exp in Ee. destruct s3 as [|c s']; [injection Ee as _ <-; lia|].
    destruct ((c =? 101) || (c =? 69)).
    - destruct (read_sign s') as [neg' r1] eqn:Es.
      assert (Hl : (List.length r1 <= List.length s')%nat).
      { unfold read_sign in Es. destruct s' as [|g r']; [injection Es as _ <-; lia|].
        destruct (g =? 45); [injection Es as _ <-; simpl; lia|].
        destruct (g =? 43); injection Es as _ <-; simpl; lia. }
      destruct (read_digits r1 0 0) as [[x0 k0] r2] eqn:Ed.
      destruct (k0 =? 0); [discriminate|]. injection Ee as _ <-.
      apply read_digits_length in Ed. simpl; lia.
    - injection Ee as _ <-. lia. }
  injection H as _ <-. lia.
Qed.

Lemma read_number_length (s : jstring) (v : JValue) (r : jstring) :
  read_number s = Some (v, r) -> (List.length r < List.length s)%nat.
Proof.
  unfold read_number. destruct s as [|c s']; [discriminate|].
  destruct (c =? 45); intros H; apply read_unsigned_length in H; simpl in *; lia.
Qed.

Lemma strip_prefix_length (p s r : jstring) :
  strip_prefix p s = Some r -> List.length s = (List.length p + List.length r)%nat.
Proof.
  revert s; induction p as [|a p IH]; intros s H; simpl in H.
  - injection H as ->. reflexivity.
  - destruct s as [|b s]; [discriminate|]. destruct (a =? b); [|discriminate].
    apply IH in H. simpl; lia.
Qed.

Lemma read_word_length (w : string) (v0 : JValue) (s : jstring) (v : JValue) (r : jstring) :
  w <> EmptyString ->
  read_word w v0 s = Some (v, r) -> (List.length r < List.length s)%nat.
Proof.
  intros Hw. unfold read_word. destruct (strip_prefix (lit w) s) eqn:E; [|discriminate].
  intros [= _ <-]. apply strip_prefix_length in E.
  destruct w; [congruence|]. simpl in E. lia.
Qed.

Lemma parse_consumes (f : nat) :
  (forall s v r, parse_value f s = Some (v, r) ->
                 (List.length r < List.length s)%nat) /\
  (forall s acc v r, parse_elements f s acc = Some (v, r) ->
                     (List.length r < List.length s)%nat) /\
  (forall s acc v r, parse_members f s acc = Some (v, r) ->
                     (List.length r < List.length s)%nat).
Proof.
  induction f as [|f (IHv & IHe & IHm)].
  - repeat split; intros; discriminate.
  - split; [|split].
    + intros s v r H. simpl in H.
      destruct s as [|c s']; [discriminate|].
      pose proof (skip_ws_length s') as Ls.
      destruct (c =? 123).
      { destruct (skip_ws s') as [|d r']; [discriminate|].
        destruct (d =? 125).
        - injection H as _ <-. simpl in *; lia.
        - apply IHm in H. simpl in *; lia. }
      destruct (c =? 91).
      { destruct (skip_ws s') as [|d r']; [discriminate|].
        destruct (d =? 93).
        - injection H as _ <-. simpl in *; lia.
        - apply IHe in H. simpl in *; lia. }
      destruct (c =? 34).
      { destruct (read_string s') as [[t r']|] eqn:E; [|discriminate].
        injection H as _ <-. apply (read_string_length _ _ _ _ (le_n _)) in E.
        simpl; lia. }
      destruct (c =? 116); [apply read_word_length in H; [exact H | discriminate]|].
      destruct (c =? 102); [apply read_word_length in H; [exact H | discriminate]|].
      destruct (c =? 110); [apply read_word_length in H; [exact H | discriminate]|].
      apply read_number_length in H. exact H.
    + intros s acc v r H. simpl in H.
      destruct (parse_value f s) as [[v1 r1]|] eqn:E; [|discriminate].
      apply IHv in E. pose proof (skip_ws_length r1) as L1.
      destruct (skip_ws r1) as [|c r']; [discriminate|].
      destruct (c =? 44).
      * apply IHe in H. pose proof (skip_ws_length r'). simpl in *; lia.
      * destruct (c =? 93); [|discriminate]. injection H as _ <-. simpl in *; lia.
    + intros s acc v r H. simpl in H.
      destruct s as [|q r0]; [discriminate|].
      destruct (q =? 34); [|discriminate].
      destruct (read_string r0) as [[k r1]|] eqn:Ek; [|discriminate].
      apply (read_string_length _ _ _ _ (le_n _)) in Ek.
      pose proof (skip_ws_length r1) as L1.
      destruct (skip_ws r1) as [|c r2]; [discriminate|].
      destruct (c =? 58); [|discriminate].
      pose proof (skip_ws_length r2) as L2.
      destruct (parse_value f (skip_ws r2)) as [[v3 r3]|] eqn:E; [|discriminate].
      apply IHv in E. pose proof (skip_ws_length r3) as L3.
      destruct (skip_ws r3) as [|d r4]; [discriminate|].
      destruct (d =? 44).
      * apply IHm in H. pose proof (skip_ws_length r4). simpl in *; lia.
      * destruct (d =? 125); [|discriminate]. injection H as _ <-. simpl in *; lia.
Qed.

(** The fuel that [JSON_parse] gives is enough: what parses with any
    fuel parses with it. *)
Lemma parse_fuel_enough (f : nat) :
  (forall s x, parse_value f s = Some x ->
               forall f', (2 * List.length s <= f')%nat -> parse_value f' s = Some x) /\
  (forall s acc x, parse_elements f s acc = Some x ->
                   forall f', (2 * List.length s + 1 <= f')%nat ->
                              parse_elements f' s acc = Some x) /\
  (forall s acc x, parse_members f s acc = Some x ->
                   forall f', (2 * List.length s + 1 <= f')%nat ->
                              parse_members f' s acc = Some x).
Proof.
  induction f as [|f (IHv & IHe & IHm)].
  - repeat split; intros; discriminate.
  - split; [|split].
    + intros s x H f' Hf. simpl in H.
      destruct s as [|c s']; [discriminate|].
      destruct f' as [|f']; [simpl in Hf; lia|]. simpl in Hf |- *.
      pose proof (skip_ws_length s') as Ls.
      destruct (c =? 123).
      { destruct (skip_ws s') as [|d r']; [discriminate|].
        destruct (d =? 125); [exact H|].
        apply (IHm _ _ _ H). simpl in *; lia. }
      destruct (c =? 91).
      { destruct (skip_ws s') as [|d r']; [discriminate|].
        destruct (d =? 93); [exact H|].
        apply (IHe _ _ _ H). simpl in *; lia. }
      exact H.
    + intros s acc x H f' Hf. simpl in H.
      destruct f' as [|f']; [lia|]. simpl.
      destruct (parse_value f s) as [[v1 r1]|] eqn:E; [|discriminate].
      rewrite (IHv _ _ E f') by lia.
      apply (proj1 (parse_consumes f)) in E.
      pose proof (skip_ws_length r1) as L1.
      destruct (skip_ws r1) as [|c r']; [discriminate|].
      destruct (c =? 44); [|exact H].
      apply (IHe _ _ _ H). pose proof (skip_ws_length r'). simpl in *; lia.
    + intros s acc x H f' Hf. simpl in H.
      destruct f' as [|f']; [lia|]. simpl.
      destruct s as [|q r0]; [discriminate|].
      destruct (q =? 34); [|discriminate].
      destruct (read_string r0) as [[k r1]|] eqn:Ek; [|discriminate].
      apply (read_string_length _ _ _ _ (le_n _)) in Ek.
      pose proof (skip_ws_length r1) as L1.
      destruct (skip_ws r1) as [|c r2]; [discriminate|].
      destruct (c =? 58); [|discriminate].
      pose proof (skip_ws_length r2) as L2.
      destruct (parse_value f (skip_ws r2)) as [[v3 r3]|] eqn:E; [|discriminate].
      rewrite (IHv _ _ E f') by (simpl in *; lia).
      apply (proj1 (parse_consumes f)) in E.
      pose proof (skip_ws_length r3) as L3.
      destruct (skip_ws r3) as [|d r4]; [discriminate|].
      destruct (d =? 44); [|exact H].
      apply (IHm _ _ _ H). pose proof (skip_ws_length r4). simpl in *; lia.
Qed.

(** [JSON_parse] does not depend on the bound: a text that parses with
    some fuel parses, and a text it rejects parses with none. *)
Lemma JSON_parse_any_fuel (f : nat) (s : jstring) (v : JValue) (r : jstring) :
  parse_value f (skip_ws s) = Some (v, r) ->
  skip_ws r = [] ->
  JSON_parse s = Some v.
Proof.
  intros H Hr. unfold JSON_parse.
  rewrite (proj1 (parse_fuel_enough f) _ _ H (fuel_for s)), Hr; [reflexivity|].
  unfold fuel_for. pose proof (skip_ws_length s). lia.
Qed.

(** So [None] is a syntax error of the text, not a shortage of fuel. *)
Lemma JSON_parse_none_any_fuel (s : jstring) :
  JSON_parse s = None ->
  forall f v r, parse_value f (skip_ws s) = Some (v, r) -> skip_ws r <> [].
Proof.
  intros H f v r Hp Hr.
  rewrite (JSON_parse_any_fuel f s v r Hp Hr) in H. discriminate.
Qed.

(* ================================================================== *)
(** ** Numbers and strings written out, read back *)
(* ================================================================== *)

Lemma uint_acc_spec (u : Decimal.uint) (acc : N) :
  uint_acc u acc =
    DecimalPos.Unsigned.of_lu (Decimal.rev u) + acc * 10 ^ DecimalPos.Unsigned.usize u.
Proof.
  revert acc.
  induction u as [|u IH|u IH|u IH|u IH|u IH|u IH|u IH|u IH|u IH|u IH]; intros acc;
    simpl uint_acc; simpl DecimalPos.Unsigned.usize;
    [ simpl; now rewrite N.mul_1_r | .. ];
    rewrite IH, N.pow_succ_r';
    change (Decimal.rev (?d u)) with (Decimal.revapp u (d Decimal.Nil));
    match goal with
    | |- context [Decimal.revapp u (?d Decimal.Nil)] =>
        rewrite (DecimalPos.Unsigned.of_lu_revapp u (d Decimal.Nil))
    end;
    simpl (DecimalPos.Unsigned.of_lu (_ Decimal.Nil)); ring.
Qed.

Lemma uint_acc_of_pos (p : positive) : uint_acc (Pos.to_uint p) 0 = N.pos p.
Proof.
  rewrite uint_acc_spec, N.mul_0_l, N.add_0_r.
  rewrite <- DecimalPos.Unsigned.of_uint_alt.
  apply DecimalPos.Unsigned.of_to.
Qed.

Lemma read_digits_uint (u : Decimal.uint) (rest : jstring) (acc cnt : N) :
  match rest with [] => True | c :: _ => digit_val c = None end ->
  exists k, read_digits (uint_chars u ++ rest) acc cnt = (uint_acc u acc, k, rest).
Proof.
  intros Hrest. revert acc cnt.
  induction u as [|u IH|u IH|u IH|u IH|u IH|u IH|u IH|u IH|u IH|u IH]; intros acc cnt;
    [ | apply IH .. ].
  simpl. destruct rest as [|c r]; simpl.
  - eexists; reflexivity.
  - rewrite Hrest. eexists; reflexivity.
Qed.

(** [Pos.to_uint] writes no leading zero. *)
Lemma to_uint_head (p : positive) :
  exists c u, uint_chars (Pos.to_uint p) = c :: uint_chars u /\
              (c =? 48) = false /\
              exists d, digit_val c = Some d /\ uint_acc (Pos.to_uint p) 0 = uint_acc u d.
Proof.
  assert (N : Pos.to_uint p = Decimal.unorm (Pos.to_uint p)).
  { rewrite <- (DecimalPos.Unsigned.to_of (Pos.to_uint p)).
    rewrite DecimalPos.Unsigned.of_to. reflexivity. }
  pose proof (DecimalPos.Unsigned.to_uint_nonzero p) as Hz.
  pose proof (DecimalFacts.nzhead_nonzero (Pos.to_uint p)) as Hn.
  unfold Decimal.unorm in N.
  destruct (Decimal.nzhead (Pos.to_uint p)) as [|u|u|u|u|u|u|u|u|u|u] eqn:E;
    [ congruence | exfalso; exact (Hn u eq_refl) | .. ];
    rewrite N; eexists _, u; (split; [reflexivity|]); (split; [reflexivity|]);
    eexists; split; reflexivity.
Qed.

Lemma read_int_pos (p : positive) (rest : jstring) :
  match rest with [] => True | c :: _ => digit_val c = None end ->
  read_int (uint_chars (Pos.to_uint p) ++ rest) = Some (N.pos p, rest).
Proof.
  intros Hrest.
  destruct (to_uint_head p) as (c & u & Hc & H48 & d & Hd & Hv).
  rewrite Hc. simpl. rewrite H48, Hd.
  destruct (read_digits_uint u rest d 0 Hrest) as (k & ->).
  now rewrite <- Hv, uint_acc_of_pos.
Qed.

Lemma read_number_decimal (n : Z) (rest : jstring) :
  ends_number rest = true ->
  read_number (decimal n ++ rest) = Some (JNumber n 0, rest).
Proof.
  intros Hrest.
  assert (Hd : match rest with [] => True | c :: _ => digit_val c = None end).
  { destruct rest as [|c r]; [exact I|]. simpl in Hrest.
    destruct (digit_val c); [discriminate | reflexivity]. }
  assert (Hnc : match rest with
               | [] => True
               | c :: _ => (c =? 46) = false /\ (c =? 101) = false /\ (c =? 69) = false
               end).
  { destruct rest as [|c r]; [exact I|]. simpl in Hrest.
    destruct (digit_val c); [discriminate|].
    rewrite !andb_true_iff, !negb_true_iff in Hrest. tauto. }
  assert (Hfrac : forall i, read_frac i rest = Some (i, 0, rest)).
  { intros i. destruct rest as [|c r]; [reflexivity|]. simpl.
    destruct Hnc as (H46 & _). now rewrite H46. }
  assert (Hexp : read_exp rest = Some (0%Z, rest)).
  { destruct rest as [|c r]; [reflexivity|]. simpl.
    destruct Hnc as (_ & H101 & H69). now rewrite H101, H69. }
  assert (Hu : forall neg p,
             read_unsigned neg (uint_chars (Pos.to_uint p) ++ rest) =
               Some (JNumber (if neg then Z.neg p else Z.pos p) 0, rest)).
  { intros neg p. unfold read_unsigned.
    rewrite read_int_pos by exact Hd. rewrite Hfrac, Hexp.
    destruct neg; reflexivity. }
  destruct n as [|p|p]; unfold decimal; simpl Z.to_int;
    unfold DecimalString.NilEmpty.string_of_int.
  - unfold read_number, read_unsigned. simpl. rewrite Hfrac, Hexp. reflexivity.
  - fold (uint_chars (Pos.to_uint p)). rewrite <- (Hu false p).
    destruct (to_uint_head p) as (c & u & Hc & H48 & d & Hdv & _).
    assert (H45 : (c =? 45) = false).
    { unfold digit_val in Hdv. destruct ((48 <=? c) && (c <=? 57)) eqn:E; [|discriminate].
      apply andb_true_iff in E as [E _]. apply N.leb_le in E. apply N.eqb_neq. lia. }
    rewrite Hc. simpl. rewrite H45. reflexivity.
  - change (lit (String "-" (DecimalString.NilEmpty.string_of_uint (Pos.to_uint p))))
      with (45 :: uint_chars (Pos.to_uint p)).
    simpl. apply (Hu true p).
Qed.

Lemma read_string_plain (s rest : jstring) :
  plain s = true -> read_string (s ++ 34 :: rest) = Some (s, rest).
Proof.
  induction s as [|c s IH]; intros Hp; simpl.
  - reflexivity.
  - simpl in Hp. apply andb_true_iff in Hp as [Hc Hs].
    unfold plain_char in Hc. apply andb_true_iff in Hc as [Hc H92].
    apply andb_true_iff in Hc as [H32 H34].
    apply negb_true_iff in H92, H34. rewrite H34, H92.
    apply N.leb_le in H32. assert (L : (c <? 32) = false) by (apply N.ltb_ge; exact H32).
    rewrite L, (IH Hs). reflexivity.
Qed.

Lemma decimal_head (n : Z) :
  exists c t, decimal n = c :: t /\ is_ws c = false /\
              (c =? 123) = false /\ (c =? 91) = false /\ (c =? 34) = false /\
              (c =? 116) = false /\ (c =? 102) = false /\ (c =? 110) = false.
Proof.
  destruct n as [|p|p].
  - eexists _, _. split; [reflexivity|]. repeat split.
  - destruct (to_uint_head p) as (c & u & Hc & _ & d & Hd & _).
    exists c, (uint_chars u). split; [exact Hc|].
    unfold digit_val in Hd. destruct ((48 <=? c) && (c <=? 57)) eqn:E; [|discriminate].
    apply andb_true_iff in E as [E1 E2]. apply N.leb_le in E1, E2.
    unfold is_ws. rewrite !orb_false_iff. repeat split; apply N.eqb_neq; lia.
  - eexists _, _. split; [reflexivity|]. repeat split.
Qed.

Lemma parse_value_decimal (f : nat) (n : Z) (rest : jstring) :
  ends_number rest = true ->
  skip_ws (decimal n ++ rest) = decimal n ++ rest /\
  parse_value (S f) (decimal n ++ rest) = Some (JNumber n 0, rest).
Proof.
  intros Hrest. pose proof (read_number_decimal n rest Hrest) as R.
  destruct (decimal_head n) as (c & t & Hc & Hws & H1 & H2 & H3 & H4 & H5 & H6).
  rewrite Hc in *.
  simpl in R |- *. rewrite Hws, H1, H2, H3, H4, H5, H6. split; [reflexivity | exact R].
Qed.

Lemma parse_value_string_array (f : nat) (s rest : jstring) :
  plain s = true ->
  parse_value (S (S (S f))) (91 :: 34 :: s ++ 34 :: 93 :: rest)
    = Some (JArray [JString s], rest).
Proof.
  intros Hp. simpl. rewrite (read_string_plain s (93 :: rest) Hp). reflexivity.
Qed.

(** One member of an object, followed by a comma or by the brace. *)
Lemma parse_members_more (f : nat) (r0 key r r' : jstring) (v : JValue)
    (r4 r4' : jstring) (acc : list (jstring * JValue)) (x : JValue * jstring) :
  read_string r0 = Some (key, 58 :: r) ->
  skip_ws r = r' ->
  parse_value f r' = Some (v, 44 :: r4) ->
  skip_ws r4 = r4' ->
  parse_members f r4' (obj_set acc key v) = Some x ->
  parse_members (S f) (34 :: r0) acc = Some x.
Proof.
  intros Hk Hr Hv H4 Hm. simpl. rewrite Hk. simpl. rewrite Hr, Hv. simpl.
  rewrite H4. exact Hm.
Qed.

Lemma parse_members_last (f : nat) (r0 key r r' : jstring) (v : JValue)
    (r4 : jstring) (acc : list (jstring * JValue)) (x : JValue * jstring) :
  read_string r0 = Some (key, 58 :: r) ->
  skip_ws r = r' ->
  parse_value f r' = Some (v, 125 :: r4) ->
  x = (JObject (obj_set acc key v), r4) ->
  parse_members (S f) (34 :: r0) acc = Some x.
Proof.
  intros Hk Hr Hv ->. simpl. rewrite Hk. simpl. rewrite Hr, Hv. reflexivity.
Qed.

Lemma nutrient_reply_parses (n : Z) (s : jstring) :
  plain s = true ->
  JSON_parse (nutrient_reply n s) = Some (nutrient_value n s).
Proof.
  intros Hp.
  apply (JSON_parse_from_fuel 6 _ _ []); [ | reflexivity | ].
  - unfold nutrient_reply.
    change (dq "{'healthScore':") with (123 :: 34 :: lit "healthScore" ++ [34; 58]).
    simpl skip_ws.
    change (parse_members 5 (34 :: lit "healthScore" ++ [34; 58]
              ++ decimal n ++ dq ",'deficiencies':['" ++ s
              ++ dq "'],'symptoms':[],'recommendations':[]}") []
            = Some (nutrient_value n s, [])).
    eapply parse_members_more.
    + simpl; reflexivity.
    + apply (parse_value_decimal 0). reflexivity.
    + apply parse_value_decimal. reflexivity.
    + simpl; reflexivity.
    + eapply parse_members_more.
      * simpl; reflexivity.
      * simpl; reflexivity.
      * apply parse_value_string_array. exact Hp.
      * simpl; reflexivity.
      * eapply parse_members_more.
        -- simpl; reflexivity.
        -- simpl; reflexivity.
        -- simpl; reflexivity.
        -- simpl; reflexivity.
        -- eapply parse_members_last.
           ++ simpl; reflexivity.
           ++ simpl; reflexivity.
           ++ simpl; reflexivity.
           ++ reflexivity.
  - unfold fuel_for, nutrient_reply. rewrite !List.length_app. simpl. lia.
Qed.

(* ================================================================== *)
(** ** What one call of an analysis function does *)
(* ================================================================== *)

Section Behaviour.

Variable ai : Request -> GwOutcome.

(** Every path of the four image functions, in one equation. *)
Lemma analyze_eq (k : ImageKind) (base64Image : jstring) (w : World) :
  analyze ai k base64Image w =
    let w1 := sent_to (request_of k base64Image) w in
    match ai (request_of k base64Image) with
    | Rejects reason => (Thrown (GatewayError reason), w1)
    | Replies resp =>
        if falsy_text (text resp) then (Thrown no_response, w1)
        else
          match JSON_parse (the_text (text resp)) with
          | Some v => (Returned v, w1)
          | None =>
              (Thrown invalid_format,
               logged [LStr (parse_log_label k); LText (the_text (text resp))] w1)
          end
    end.
Proof.
  destruct k; cbv [analyze analyzePlantImage analyzeSoilReport analyzeSeedImage
    analyzePlantNutrients bind generateContent call request_of prompt_of
    instruction_of parse_log_label];
    (destruct (ai _) as [reason|resp]; [reflexivity|]);
    cbv zeta; (destruct (falsy_text (text resp)); [reflexivity|]);
    cbv [try_catch JSON_parse_m]; destruct (JSON_parse _); reflexivity.
Qed.

Lemma getWeatherDetails_eq (location : jstring) (w : World) :
  getWeatherDetails ai location w =
    let w1 := sent_to (weather_request location) w in
    match ai (weather_request location) with
    | Rejects reason => (Thrown (GatewayError reason), w1)
    | Replies resp =>
        match JSON_parse (text_or (text resp) (dq "{}")) with
        | Some v =>
            (Returned {| weather_data := v;
                         weather_groundingMetadata := first_groundingMetadata resp |},
             w1)
        | None =>
            (Returned {| weather_data := JNull;
                         weather_groundingMetadata := first_groundingMetadata resp |},
             logged [LStr "Failed to parse weather JSON"; LExn SyntaxError] w1)
        end
    end.
Proof.
  cbv [getWeatherDetails bind generateContent call weather_request].
  destruct (ai _) as [reason|resp]; [reflexivity|].
  cbv [try_catch JSON_parse_m]. destruct (JSON_parse _); reflexivity.
Qed.

End Behaviour.

(* ================================================================== *)
(** ** Chat: what the three functions send *)
(* ================================================================== *)

Lemma chat_sends (ai : Request -> GwOutcome) (persona : Persona)
    (history : list Turn) (newMessage : jstring) (w : World) :
  sent (snd (chat ai persona history newMessage w)) =
    sent w ++ [SendMessage {| chat_model := "gemini-3-flash-preview";
                              chat_systemInstruction := chat_persona persona;
                              chat_history := None |} newMessage].
Proof.
  destruct persona; cbv [chat chatWithBotanist chatWithGardenMaster
    chatWithSoilExpert bind sendMessage call chat_persona];
    destruct (ai _); reflexivity.
Qed.

(** C2 (the code at the failing input).  A caller passes two prior turns
    and a new message to each of the three chat functions: the one
    request sent carries the persona instruction and the new message,
    and neither prior turn is part of its conversation context.  For
    every history the context is the new message alone. *)
Theorem chat_history_not_forwarded :
  (forall persona ai w,
      exists r,
        sent (snd (chat ai persona prior_turns follow_up w)) = sent w ++ [r] /\
        request_instruction r = Some (chat_persona persona) /\
        request_context r = [ {| role := user; turn_text := follow_up |} ] /\
        forall t, In t prior_turns -> ~ In t (request_context r)) /\
  (forall persona ai w (h : list Turn) (m : jstring),
      exists r,
        sent (snd (chat ai persona h m w)) = sent w ++ [r] /\
        request_context r = [ {| role := user; turn_text := m |} ]).
Proof.
  split.
  - intros persona ai w. eexists. split; [apply chat_sends|].
    split; [reflexivity|]. split; [reflexivity|].
    intros t Ht [Hin|[]]. subst t.
    destruct Ht as [Ht|[Ht|[]]]; vm_compute in Ht; discriminate Ht.
  - intros persona ai w h m. eexists. split; [apply chat_sends|]. reflexivity.
Qed.

(* ================================================================== *)
(** ** The attachment of the image requests *)
(* ================================================================== *)

Lemma has_comma_app (a b : jstring) :
  has_comma (a ++ b) = has_comma a || has_comma b.
Proof. apply existsb_app. Qed.

Lemma split_comma_app (a s cur : jstring) :
  has_comma a = false ->
  split_comma (a ++ s) cur = split_comma s (cur ++ a).
Proof.
  revert cur; induction a as [|c a IH]; intros cur Ha; simpl.
  - now rewrite List.app_nil_r.
  - simpl in Ha. apply orb_false_iff in Ha as [Hc Ha].
    rewrite Hc, IH by exact Ha. now rewrite <- List.app_assoc.
Qed.

Lemma split_comma_length (s cur : jstring) :
  (1 <= List.length (split_comma s cur))%nat.
Proof.
  revert cur; induction s as [|c s IH]; intros cur; simpl; [lia|].
  destruct (c =? 44); simpl; [lia | apply IH].
Qed.

Lemma split_comma_second (a s cur : jstring) :
  nth_error (split_comma (a ++ 44 :: s) cur) 1 <> None.
Proof.
  revert cur; induction a as [|c a IH]; intros cur; simpl.
  - pose proof (split_comma_length s []) as H.
    destruct (split_comma s []); simpl in *; [lia | discriminate].
  - destruct (c =? 44); [|apply IH].
    pose proof (split_comma_length (a ++ 44 :: s) []) as H.
    destruct (split_comma (a ++ 44 :: s) []); simpl in *; [lia | discriminate].
Qed.

(** A data URL always has a piece after its first comma. *)
Lemma data_url_has_payload (f : File) :
  nth_error (split_comma (readAsDataURL f) []) 1 <> None.
Proof.
  unfold readAsDataURL.
  replace (lit "data:" ++ file_type f ++ lit ";base64," ++ file_base64 f)
    with ((lit "data:" ++ file_type f ++ lit ";base64") ++ 44 :: file_base64 f).
  - apply split_comma_second.
  - rewrite <- !List.app_assoc. reflexivity.
Qed.

Lemma data_url_payload (f : File) :
  has_comma (file_type f) = false ->
  has_comma (file_base64 f) = false ->
  nth_error (split_comma (readAsDataURL f) []) 1 = Some (file_base64 f).
Proof.
  intros Ht Hb. unfold readAsDataURL.
  replace (lit "data:" ++ file_type f ++ lit ";base64," ++ file_base64 f)
    with ((lit "data:" ++ file_type f ++ lit ";base64") ++ 44 :: file_base64 f)
    by (rewrite <- !List.app_assoc; reflexivity).
  rewrite split_comma_app.
  - simpl split_comma at 1. simpl nth_error.
    replace (file_base64 f) with (file_base64 f ++ []) at 1 by apply List.app_nil_r.
    rewrite split_comma_app by exact Hb. reflexivity.
  - rewrite !has_comma_app, Ht. reflexivity.
Qed.

Lemma analyze_sent (ai : Request -> GwOutcome) (k : ImageKind)
    (base64Image : jstring) (w : World) :
  sent (snd (analyze ai k base64Image w)) = sent w ++ [request_of k base64Image].
Proof.
  rewrite analyze_eq. cbv zeta.
  destruct (ai _) as [reason|resp]; [reflexivity|].
  destruct (falsy_text _); [reflexivity|].
  destruct (JSON_parse _); reflexivity.
Qed.

Lemma performAnalysis_sent (ai : Request -> GwOutcome) env base64 st w :
  sent (snd (performAnalysis ai env base64 st w)) =
    sent w ++ [request_of Nutrient base64].
Proof.
  unfold performAnalysis, onAddToHistory.
  pose proof (analyze_sent ai Nutrient base64 w) as H. simpl analyze in H.
  destruct (analyzePlantNutrients ai base64 w) as [[data|err] w1]; simpl in H.
  - destruct (truthy data); simpl; [|exact H].
    destruct (crypto_randomUUID env) as [uuid|e]; simpl; [|exact H].
    destruct (onAddToHistory_prop env _); simpl; exact H.
  - simpl. exact H.
Qed.

(** C10.  Each of the four image functions sends one request whose
    first part is the image given, labelled [image/jpeg], whatever the
    image is; and an upload through [handleFileUpload] of a file of any
    media type (its type and base64 content without a comma) is sent
    with that label. *)
Theorem attachment_mime_is_jpeg :
  (forall ai k base64Image w,
      exists p,
        sent (snd (analyze ai k base64Image w)) = sent w ++ [GenerateContent p] /\
        contents p = Parts [ inlineData {| mimeType := "image/jpeg";
                                           data := base64Image |};
                             textPart (prompt_of k) ]) /\
  (forall ai env (f : File) st w,
      has_comma (file_type f) = false ->
      has_comma (file_base64 f) = false ->
      exists p,
        sent (snd (handleFileUpload ai env (Some f) st w))
          = sent w ++ [GenerateContent p] /\
        contents p = Parts [ inlineData {| mimeType := "image/jpeg";
                                           data := file_base64 f |};
                             textPart NutrientPrompt ]).
Proof.
  split.
  - intros ai k b w. eexists. split; [apply analyze_sent|]. reflexivity.
  - intros ai env f st w Ht Hb. unfold handleFileUpload.
    rewrite (data_url_payload f Ht Hb).
    eexists. split; [apply performAnalysis_sent|]. reflexivity.
Qed.

Lemma attachment_mime_is_jpeg_witness :
  exists p,
    sent (snd (handleFileUpload (replies_text (dq "{'healthScore':45}"))
                 (quiet (lit "id-1") 0%Z) (Some png_upload)
                 {| isAnalyzing := false; result := None;
                    currentImage := None; error := None |} world0))
      = sent world0 ++ [GenerateContent p] /\
    contents p = Parts [ inlineData {| mimeType := "image/jpeg";
                                       data := file_base64 png_upload |};
                         textPart NutrientPrompt ].
Proof.
  apply (proj2 attachment_mime_is_jpeg); reflexivity.
Defined.

(* ================================================================== *)
(** ** The two flows: [performAnalysis] and [performSearch] *)
(* ================================================================== *)

Section Flows.

Variable ai : Request -> GwOutcome.

Lemma performAnalysis_eq env base64 st w :
  performAnalysis ai env base64 st w =
    match analyzePlantNutrients ai base64 w with
    | (Returned v, w1) =>
        if truthy v then
          match crypto_randomUUID env with
          | Returned uuid =>
              match onAddToHistory_prop env
                      (history_item uuid (Date_now env) base64 v) with
              | None =>
                  ({| isAnalyzing := false; result := Some v;
                      currentImage := currentImage st; error := None |},
                   taken (history_item uuid (Date_now env) base64 v) w1)
              | Some e =>
                  ({| isAnalyzing := false; result := Some v;
                      currentImage := currentImage st;
                      error := Some nutrient_error_message |},
                   logged [LStr "Nutrient analysis error:"; LExn e] w1)
              end
          | Thrown e =>
              ({| isAnalyzing := false; result := Some v;
                  currentImage := currentImage st;
                  error := Some nutrient_error_message |},
               logged [LStr "Nutrient analysis error:"; LExn e] w1)
          end
        else
          ({| isAnalyzing := false; result := None;
              currentImage := currentImage st;
              error := Some nutrient_error_message |},
           logged [LStr "Nutrient analysis error:";
                   LExn (Error "Nutrient analysis returned empty data.")] w1)
    | (Thrown err, w1) =>
        ({| isAnalyzing := false; result := None;
            currentImage := currentImage st;
            error := Some nutrient_error_message |},
         logged [LStr "Nutrient analysis error:"; LExn err] w1)
    end.
Proof.
  unfold performAnalysis, onAddToHistory, history_item.
  destruct (analyzePlantNutrients ai base64 w) as [[v|err] w1].
  - destruct (truthy v); [|reflexivity]. simpl.
    destruct (crypto_randomUUID env) as [uuid|e]; [|reflexivity].
    destruct (onAddToHistory_prop env _); reflexivity.
  - reflexivity.
Qed.

Lemma performSearch_eq query st w :
  performSearch ai query st w =
    match getWeatherDetails ai query w with
    | (Returned r, w1) =>
        if truthy (weather_data r) then
          ({| city := city st; weatherData := Some (weather_data r);
              shownMetadata := weather_groundingMetadata r;
              loading := false; weather_error := None |}, w1)
        else
          ({| city := city st; weatherData := None; shownMetadata := None;
              loading := false; weather_error := Some parse_message |}, w1)
    | (Thrown err, w1) =>
        ({| city := city st; weatherData := None; shownMetadata := None;
            loading := false; weather_error := Some fetch_message |}, w1)
    end.
Proof.
  unfold performSearch.
  destruct (getWeatherDetails ai query w) as [[r|err] w1].
  - destruct (truthy (weather_data r)); reflexivity.
  - reflexivity.
Qed.

End Flows.

Lemma chat_eq (ai : Request -> GwOutcome) (persona : Persona)
    (history : list Turn) (newMessage : jstring) (w : World) :
  chat ai persona history newMessage w =
    match ai (chat_request persona newMessage) with
    | Rejects reason =>
        (Thrown (GatewayError reason), sent_to (chat_request persona newMessage) w)
    | Replies resp =>
        (Returned (text resp), sent_to (chat_request persona newMessage) w)
    end.
Proof.
  destruct persona; cbv [chat chatWithBotanist chatWithGardenMaster
    chatWithSoilExpert bind sendMessage call chat_request chat_persona];
    destruct (ai _); reflexivity.
Qed.

Lemma translateText_eq (ai : Request -> GwOutcome) (t : jstring)
    (targetLanguage : string) (w : World) :
  translateText ai t targetLanguage w =
    match ai (translate_request t targetLanguage) with
    | Rejects reason =>
        (Thrown (GatewayError reason), sent_to (translate_request t targetLanguage) w)
    | Replies resp =>
        (Returned (text resp), sent_to (translate_request t targetLanguage) w)
    end.
Proof.
  cbv [translateText bind generateContent call translate_request].
  destruct (ai _); reflexivity.
Qed.

Lemma app_one_neq {A : Type} (l : list A) (x : A) : l ++ [x] <> l.
Proof.
  intros H. apply (f_equal (@List.length A)) in H.
  rewrite List.length_app in H. simpl in H. lia.
Qed.

Lemma analyze_added (ai : Request -> GwOutcome) (k : ImageKind)
    (base64 : jstring) (w : World) :
  added (snd (analyze ai k base64 w)) = added w.
Proof.
  rewrite analyze_eq. cbv zeta.
  destruct (ai _) as [reason|resp]; [reflexivity|].
  destruct (falsy_text _); [reflexivity|]. destruct (JSON_parse _); reflexivity.
Qed.

(** The three ways in which one run of the nutrient flow ends: with a
    result, no message and one more history item; with a result and
    the message, when [crypto.randomUUID()] or the parent's callback
    threw after the result was set; or with the message alone. *)
Lemma performAnalysis_cases ai env base64 st w :
  (exists v uuid,
      fst (analyzePlantNutrients ai base64 w) = Returned v /\
      truthy v = true /\
      crypto_randomUUID env = Returned uuid /\
      onAddToHistory_prop env (history_item uuid (Date_now env) base64 v) = None /\
      fst (performAnalysis ai env base64 st w) =
        {| isAnalyzing := false; result := Some v;
           currentImage := currentImage st; error := None |} /\
      added (snd (performAnalysis ai env base64 st w)) =
        added w ++ [history_item uuid (Date_now env) base64 v]) \/
  (exists v,
      fst (analyzePlantNutrients ai base64 w) = Returned v /\
      truthy v = true /\
      (forall uuid, crypto_randomUUID env = Returned uuid ->
         onAddToHistory_prop env (history_item uuid (Date_now env) base64 v) <> None) /\
      fst (performAnalysis ai env base64 st w) =
        {| isAnalyzing := false; result := Some v;
           currentImage := currentImage st;
           error := Some nutrient_error_message |} /\
      added (snd (performAnalysis ai env base64 st w)) = added w) \/
  ((forall v, fst (analyzePlantNutrients ai base64 w) = Returned v ->
              truthy v = false) /\
   fst (performAnalysis ai env base64 st w) =
     {| isAnalyzing := false; result := None;
        currentImage := currentImage st;
        error := Some nutrient_error_message |} /\
   added (snd (performAnalysis ai env base64 st w)) = added w).
Proof.
  rewrite performAnalysis_eq.
  pose proof (analyze_added ai Nutrient base64 w) as A. simpl analyze in A.
  destruct (analyzePlantNutrients ai base64 w) as [[v|err] w1]; simpl in A.
  - destruct (truthy v) eqn:Hv.
    + destruct (crypto_randomUUID env) as [uuid|e] eqn:Hu.
      * destruct (onAddToHistory_prop env _) as [e|] eqn:Hp.
        -- right. left. exists v. simpl. repeat split; auto.
           intros uuid' [= <-]. rewrite Hp. discriminate.
        -- left. exists v, uuid. simpl. rewrite A. repeat split; auto.
      * right. left. exists v. simpl. repeat split; auto. discriminate.
    + right. right. simpl. repeat split; auto. intros v' [= <-]. exact Hv.
  - right. right. simpl. repeat split; auto. discriminate.
Qed.







Lemma truthy_text_not_falsy (r : Response) (t : jstring) :
  text r = Some t -> t <> [] ->
  falsy_text (text r) = false /\ the_text (text r) = t /\
  text_or (text r) (dq "{}") = t.
Proof.
  intros -> Ht. destruct t as [|c t]; [congruence|]. repeat split.
Qed.

(** What the nutrient flow does on a reply that is not JSON. *)
Lemma performAnalysis_parse_failure ai env base64 st w r t :
  ai (request_of Nutrient base64) = Replies r ->
  text r = Some t -> t <> [] -> JSON_parse t = None ->
  performAnalysis ai env base64 st w =
    ({| isAnalyzing := false; result := None; currentImage := currentImage st;
        error := Some nutrient_error_message |},
     logged [LStr "Nutrient analysis error:"; LExn invalid_format]
       (logged [LStr "Failed to parse nutrient report:"; LText t]
          (sent_to (request_of Nutrient base64) w))).
Proof.
  intros Hai Ht Hne Hp.
  destruct (truthy_text_not_falsy r t Ht Hne) as (Hf & Hthe & _).
  rewrite performAnalysis_eq.
  pose proof (analyze_eq ai Nutrient base64 w) as E. simpl analyze in E.
  rewrite E. cbv zeta. rewrite Hai, Hf, Hthe, Hp. reflexivity.
Qed.

Lemma performSearch_parse_failure ai query st w r t :
  ai (weather_request query) = Replies r ->
  text r = Some t -> t <> [] -> JSON_parse t = None ->
  fst (performSearch ai query st w) =
    {| city := city st; weatherData := None; shownMetadata := None;
       loading := false; weather_error := Some parse_message |}.
Proof.
  intros Hai Ht Hne Hp.
  destruct (truthy_text_not_falsy r t Ht Hne) as (_ & _ & Hor).
  rewrite performSearch_eq, getWeatherDetails_eq. cbv zeta.
  rewrite Hai, Hor, Hp. reflexivity.
Qed.

(** C9.  Take any two replies whose texts are not JSON.  The nutrient
    flow ends in the same component state for both: no result, and the
    fixed message [nutrient_error_message]; the history is not touched.
    The raw text of each reply is in the console line of the parser and
    nowhere in the state.  The weather flow likewise ends in the same
    state, with the fixed message [parse_message]. *)
Theorem parse_failure_message_is_generic :
  forall ai1 ai2 r1 r2 t1 t2,
    text r1 = Some t1 -> t1 <> [] -> JSON_parse t1 = None ->
    text r2 = Some t2 -> t2 <> [] -> JSON_parse t2 = None ->
    (forall env1 env2 base64 st w,
        ai1 (request_of Nutrient base64) = Replies r1 ->
        ai2 (request_of Nutrient base64) = Replies r2 ->
        let run1 := performAnalysis ai1 env1 base64 st w in
        let run2 := performAnalysis ai2 env2 base64 st w in
        fst run1 = fst run2 /\
        error (fst run1) = Some nutrient_error_message /\
        result (fst run1) = None /\
        added (snd run1) = added w /\ added (snd run2) = added w /\
        console (snd run1) =
          console w ++ [ [LStr "Failed to parse nutrient report:"; LText t1];
                         [LStr "Nutrient analysis error:"; LExn invalid_format] ]) /\
    (forall query st w,
        ai1 (weather_request query) = Replies r1 ->
        ai2 (weather_request query) = Replies r2 ->
        fst (performSearch ai1 query st w) = fst (performSearch ai2 query st w) /\
        weather_error (fst (performSearch ai1 query st w)) = Some parse_message /\
        weatherData (fst (performSearch ai1 query st w)) = None).
Proof.
  intros ai1 ai2 r1 r2 t1 t2 T1 N1 P1 T2 N2 P2. split.
  - intros env1 env2 base64 st w A1 A2. cbv zeta.
    rewrite (performAnalysis_parse_failure ai1 env1 base64 st w r1 t1 A1 T1 N1 P1).
    rewrite (performAnalysis_parse_failure ai2 env2 base64 st w r2 t2 A2 T2 N2 P2).
    simpl. rewrite <- List.app_assoc. repeat split.
  - intros query st w A1 A2.
    rewrite (performSearch_parse_failure ai1 query st w r1 t1 A1 T1 N1 P1).
    rewrite (performSearch_parse_failure ai2 query st w r2 t2 A2 T2 N2 P2).
    repeat split.
Qed.

Lemma parse_failure_message_is_generic_witness :
  let run1 := performAnalysis (replies_text truncated_reply)
                (quiet (lit "id-1") 1%Z) (lit "AAAA") idle world0 in
  let run2 := performAnalysis (replies_text prose_reply)
                (quiet (lit "id-2") 2%Z) (lit "AAAA") idle world0 in
  fst run1 = fst run2 /\
  error (fst run1) = Some nutrient_error_message /\
  result (fst run1) = None /\
  added (snd run1) = added world0 /\ added (snd run2) = added world0 /\
  console (snd run1) =
    console world0 ++ [ [LStr "Failed to parse nutrient report:"; LText truncated_reply];
                        [LStr "Nutrient analysis error:"; LExn invalid_format] ].
Proof.
  apply (proj1 (parse_failure_message_is_generic
                  (replies_text truncated_reply) (replies_text prose_reply)
                  {| text := Some truncated_reply; candidates := None |}
                  {| text := Some prose_reply; candidates := None |}
                  truncated_reply prose_reply
                  eq_refl ltac:(discriminate) ltac:(vm_compute; reflexivity)
                  eq_refl ltac:(discriminate) ltac:(vm_compute; reflexivity)));
    reflexivity.
Defined.

(* ================================================================== *)
(** ** Parse failures and request failures *)
(* ================================================================== *)

(** C1 (counterexample).  The reply [partial_reply] is valid JSON
    without the fields [deficiencies], [symptoms] and [recommendations]
    of the nutrient record.  The analysis call does not fail: it returns
    the object with its one field, and the flow shows it as the result
    and adds it to the history. *)
Lemma partial_reply_is_returned :
  JSON_parse partial_reply = Some partial_value /\
  has_required_fields Nutrient partial_value = false /\
  fst (analyze (replies_text partial_reply) Nutrient (lit "AAAA") world0)
    = Returned partial_value /\
  result (fst (performAnalysis (replies_text partial_reply)
                 (quiet (lit "id-1") 1%Z) (lit "AAAA") idle world0))
    = Some partial_value /\
  error (fst (performAnalysis (replies_text partial_reply)
                (quiet (lit "id-1") 1%Z) (lit "AAAA") idle world0))
    = None /\
  List.length (added (snd (performAnalysis (replies_text partial_reply)
                             (quiet (lit "id-1") 1%Z) (lit "AAAA") idle world0))) = 1%nat.
Proof. vm_compute. repeat split. Qed.

(** C1 (amended).  For a reply with a non-empty text [t]: each of the
    four image functions returns [JSON.parse(t)] as it is when [t] is
    JSON, whatever fields the value has, and throws [invalid_format],
    after logging [t], when [t] is not JSON; [getWeatherDetails] returns
    the parsed value as [data], and [null] when [t] is not JSON, after
    which the weather flow shows no result and the message
    [parse_message].  A returned value is always the parse of the
    reply's text. *)
Theorem syntax_error_fails_the_call :
  forall ai resp t,
    text resp = Some t -> t <> [] ->
    (forall k base64 w,
        ai (request_of k base64) = Replies resp ->
        fst (analyze ai k base64 w) =
          match JSON_parse t with
          | Some v => Returned v
          | None => Thrown invalid_format
          end /\
        (JSON_parse t = None ->
         console (snd (analyze ai k base64 w)) =
           console w ++ [[LStr (parse_log_label k); LText t]])) /\
    (forall location st w,
        ai (weather_request location) = Replies resp ->
        fst (getWeatherDetails ai location w) =
          Returned {| weather_data := match JSON_parse t with
                                      | Some v => v
                                      | None => JNull
                                      end;
                      weather_groundingMetadata := first_groundingMetadata resp |} /\
        (JSON_parse t = None ->
         weatherData (fst (performSearch ai location st w)) = None /\
         weather_error (fst (performSearch ai location st w)) = Some parse_message)) /\
    (forall k base64 w v,
        ai (request_of k base64) = Replies resp ->
        fst (analyze ai k base64 w) = Returned v -> JSON_parse t = Some v).
Proof.
  intros ai resp t Ht Hne.
  destruct (truthy_text_not_falsy resp t Ht Hne) as (Hf & Hthe & Hor).
  split; [|split].
  - intros k base64 w Hai. rewrite analyze_eq. cbv zeta.
    rewrite Hai, Hf, Hthe. destruct (JSON_parse t); split; try reflexivity.
    discriminate.
  - intros location st w Hai. split.
    + rewrite getWeatherDetails_eq. cbv zeta. rewrite Hai, Hor.
      destruct (JSON_parse t); reflexivity.
    + intros Hp.
      rewrite (performSearch_parse_failure ai location st w resp t Hai Ht Hne Hp).
      split; reflexivity.
  - intros k base64 w v Hai. rewrite analyze_eq. cbv zeta.
    rewrite Hai, Hf, Hthe. destruct (JSON_parse t); [|discriminate].
    intros [= ->]. reflexivity.
Qed.

Lemma syntax_error_fails_the_call_witness :
  fst (analyze (replies_text truncated_reply) Nutrient (lit "AAAA") world0)
    = Thrown invalid_format /\
  console (snd (analyze (replies_text truncated_reply) Nutrient (lit "AAAA") world0))
    = [[LStr "Failed to parse nutrient report:"; LText truncated_reply]] /\
  fst (analyze (replies_text truncated_reply) Disease (lit "AAAA") world0)
    = Thrown invalid_format.
Proof.
  pose proof (syntax_error_fails_the_call (replies_text truncated_reply)
                {| text := Some truncated_reply; candidates := None |}
                truncated_reply eq_refl ltac:(discriminate)) as (H & _ & _).
  split; [|split].
  - exact (proj1 (H Nutrient (lit "AAAA") world0 eq_refl)).
  - exact (proj2 (H Nutrient (lit "AAAA") world0 eq_refl) ltac:(vm_compute; reflexivity)).
  - exact (proj1 (H Disease (lit "AAAA") world0 eq_refl)).
Defined.




(* ================================================================== *)
(** ** Weather grounding sources *)
(* ================================================================== *)

(** C4 (counterexample).  The gateway metadata has two citation chunks,
    [cited] with a link and [uncited] without.  The source list
    attached to the result of [getWeatherDetails] has both. *)
Lemma result_metadata_is_unfiltered :
  exists r,
    fst (getWeatherDetails grounded_reply (lit "Kochi") world0) = Returned r /\
    weather_groundingMetadata r = Some {| groundingChunks := Some [cited; uncited] |} /\
    resolvable_uri uncited = None.
Proof. eexists. vm_compute. repeat split. Qed.

Lemma render_chunks_hrefs (hostname : jstring -> option jstring)
    (chunks : list GroundingChunk) :
  (forall c u, In c chunks -> resolvable_uri c = Some u ->
               link_label hostname c u <> None) ->
  forall i, exists anchors,
    render_chunks hostname i chunks = Some anchors /\
    map href anchors = resolvable_uris chunks.
Proof.
  induction chunks as [|c rest IH]; intros Hl i; simpl.
  - exists []. split; reflexivity.
  - destruct (IH (fun c' u H => Hl c' u (or_intror H)) (S i)) as (anchors & Hr & Hh).
    destruct (resolvable_uri c) as [u|] eqn:Hu.
    + destruct (link_label hostname c u) as [l|] eqn:Hlab.
      * rewrite Hr. eexists. split; [reflexivity|]. simpl. now rewrite Hh.
      * exfalso. exact (Hl c u (or_introl eq_refl) Hu Hlab).
    + exists anchors. split; assumption.
Qed.

(** C4 (amended).  [getWeatherDetails] attaches the metadata of the
    first candidate as it came, with every chunk, linked or not, and a
    search that ends with a result keeps it in the state as it came.
    The filter is the map expression of the "Verified Sources" block of
    the Weather view.  Evaluated on a list of chunks in which every
    chunk with a non-empty link has a non-empty title or a link that
    [new URL] accepts, the expression gives one anchor for each chunk
    with a non-empty link, in order, with the link as its [href], and
    nothing for the other chunks; evaluated on a list with a linked
    chunk that has neither, it throws.  Nothing is said here on whether
    the page reaches the block: it stands at the end of the result
    card, after the other expressions of the card. *)
Theorem rendered_sources_are_the_resolvable_chunks :
  (forall ai query w resp,
      ai (weather_request query) = Replies resp ->
      exists data,
        fst (getWeatherDetails ai query w) =
          Returned {| weather_data := data;
                      weather_groundingMetadata := first_groundingMetadata resp |}) /\
  (forall ai query st w,
      weatherData (fst (performSearch ai query st w)) <> None ->
      exists resp,
        ai (weather_request query) = Replies resp /\
        shownMetadata (fst (performSearch ai query st w))
          = first_groundingMetadata resp) /\
  (forall hostname chunks,
      (forall c u, In c chunks -> resolvable_uri c = Some u ->
                   link_label hostname c u <> None) ->
      exists anchors,
        render_chunks hostname 0 chunks = Some anchors /\
        map href anchors = resolvable_uris chunks) /\
  (forall hostname chunks,
      (exists c u, In c chunks /\ resolvable_uri c = Some u /\
                   link_label hostname c u = None) ->
      render_chunks hostname 0 chunks = None).
Proof.
  split; [|split; [|split]].
  - intros ai query w resp Hai. rewrite getWeatherDetails_eq. cbv zeta.
    rewrite Hai. destruct (JSON_parse _); eexists; reflexivity.
  - intros ai query st w. rewrite performSearch_eq, getWeatherDetails_eq.
    cbv zeta. destruct (ai _) as [reason|resp]; simpl; [congruence|].
    destruct (JSON_parse _) as [v|]; simpl; [|congruence].
    destruct (truthy v); simpl; [|congruence].
    intros _. exists resp. split; reflexivity.
  - intros hostname chunks Hl. apply render_chunks_hrefs. exact Hl.
  - intros hostname chunks (c & u & Hin & Hu & Hlab).
    destruct (render_chunks hostname 0 chunks) as [anchors|] eqn:E; [|reflexivity].
    exfalso. revert anchors E. generalize 0%nat.
    induction chunks as [|c' rest IH]; intros i anchors E; [contradiction|].
    simpl in E. destruct Hin as [->|Hin].
    + rewrite Hu, Hlab in E. discriminate.
    + destruct (resolvable_uri c') as [u'|].
      * destruct (link_label hostname c' u'); [|discriminate].
        destruct (render_chunks hostname (S i) rest) eqn:E'; [|discriminate].
        exact (IH Hin _ _ E').
      * exact (IH Hin _ _ E).
Qed.

Lemma rendered_sources_are_the_resolvable_chunks_witness :
  exists anchors,
    render_chunks no_hostname 0 [cited; uncited] = Some anchors /\
    map href anchors = [lit "https://weather.example/kochi"].
Proof.
  apply (proj1 (proj2 (proj2 rendered_sources_are_the_resolvable_chunks))
           no_hostname [cited; uncited]).
  intros c u [<-|[<-|[]]]; vm_compute; intros H; discriminate.
Defined.

(* ================================================================== *)
(** ** The nutrient reply: health score and sentinels *)
(* ================================================================== *)

Lemma analyze_replies_text (k : ImageKind) (t : jstring) (v : JValue)
    (base64 : jstring) (w : World) :
  JSON_parse t = Some v ->
  fst (analyze (replies_text t) k base64 w) = Returned v.
Proof.
  intros Hp. rewrite analyze_eq. cbv zeta. unfold replies_text at 1.
  assert (Hne : t <> []) by (intros ->; discriminate Hp).
  destruct t as [|c t]; [congruence|]. simpl falsy_text. simpl the_text.
  rewrite Hp. reflexivity.
Qed.

(** C7.  For every integer [n] (of magnitude at most 2^53, where the
    number of JavaScript is the integer itself) the nutrient reply with
    the health score [n] gives a result whose [healthScore] is [n]: no
    rounding, no clamping to 0..100; the flow shows that result.  The
    stub reply of the scenario gives the health score 45 and the
    deficiencies [["Nitrogen"]]; a reply with [healthScore: 83] gives
    83. *)
Theorem health_score_is_passed_through :
  (forall n s base64 w,
      (- 2 ^ 53 <= n <= 2 ^ 53)%Z -> plain s = true ->
      let ai := replies_text (nutrient_reply n s) in
      exists v,
        fst (analyzePlantNutrients ai base64 w) = Returned v /\
        get v (lit "healthScore") = Some (JNumber n 0) /\
        health_score v = Some n /\
        forall env st,
          result (fst (performAnalysis ai env base64 st w)) = Some v) /\
  (forall base64 w,
      exists v,
        fst (analyzePlantNutrients (replies_text stub_reply) base64 w) = Returned v /\
        health_score v = Some 45%Z /\
        get v (lit "deficiencies") = Some (JArray [JString (lit "Nitrogen")])) /\
  (forall base64 w,
      exists v,
        fst (analyzePlantNutrients (replies_text spaced_reply) base64 w) = Returned v /\
        health_score v = Some 83%Z).
Proof.
  split; [|split].
  - intros n s base64 w _ Hp ai. exists (nutrient_value n s).
    pose proof (analyze_replies_text Nutrient _ _ base64 w (nutrient_reply_parses n s Hp))
      as H. simpl analyze in H. fold ai in H.
    split; [exact H|]. split; [reflexivity|]. split.
    + unfold health_score. simpl. now rewrite Z.mul_1_r.
    + intros env st. rewrite performAnalysis_eq.
      destruct (analyzePlantNutrients ai base64 w) as [r w1]. simpl in H. subst r.
      change (truthy (nutrient_value n s)) with true. cbv iota.
      destruct (crypto_randomUUID env) as [uuid|e]; [|reflexivity].
      destruct (onAddToHistory_prop env _); reflexivity.
  - intros base64 w. eexists. split.
    + apply (analyze_replies_text Nutrient stub_reply). vm_compute. reflexivity.
    + split; reflexivity.
  - intros base64 w. eexists. split.
    + apply (analyze_replies_text Nutrient spaced_reply). vm_compute. reflexivity.
    + reflexivity.
Qed.

Lemma health_score_is_passed_through_witness :
  exists v,
    fst (analyzePlantNutrients (replies_text (nutrient_reply 250 (lit "None")))
           (lit "AAAA") world0) = Returned v /\
    get v (lit "healthScore") = Some (JNumber 250 0) /\
    health_score v = Some 250%Z /\
    forall env st,
      result (fst (performAnalysis (replies_text (nutrient_reply 250 (lit "None")))
                     env (lit "AAAA") st world0)) = Some v.
Proof.
  apply (proj1 health_score_is_passed_through 250%Z (lit "None") (lit "AAAA") world0).
  - split; vm_compute; discriminate.
  - reflexivity.
Defined.

(** C8.  A reply whose [deficiencies] is the one string [s], written
    as it is (no quote, backslash or control character in it), gives a
    result whose [deficiencies] is the array of that one string, for
    each of the four image functions: the sentinels None and N/A come
    out as they went in, and the array is not emptied.  The functions
    return the value of [JSON.parse] untouched; it is the view that
    shows "No Major Deficiencies" for the sentinel. *)
Theorem sentinels_are_preserved :
  (forall k n s base64 w,
      plain s = true ->
      exists v,
        fst (analyze (replies_text (nutrient_reply n s)) k base64 w) = Returned v /\
        get v (lit "deficiencies") = Some (JArray [JString s]) /\
        get v (lit "deficiencies") <> Some (JArray [])) /\
  (forall ai k base64 w v,
      fst (analyze ai k base64 w) = Returned v ->
      exists resp, ai (request_of k base64) = Replies resp /\
                   JSON_parse (the_text (text resp)) = Some v) /\
  (forall n, deficiency_list_shown (nutrient_value n (lit "None")) = Some false).
Proof.
  split; [|split].
  - intros k n s base64 w Hp. exists (nutrient_value n s). split.
    + apply analyze_replies_text, nutrient_reply_parses, Hp.
    + split; [reflexivity | discriminate].
  - intros ai k base64 w v. rewrite analyze_eq. cbv zeta.
    destruct (ai _) as [reason|resp]; [discriminate|].
    destruct (falsy_text _); [discriminate|].
    destruct (JSON_parse _) as [v'|] eqn:E; [|discriminate].
    intros [= ->]. exists resp. split; [reflexivity | exact E].
  - intros n. reflexivity.
Qed.

Lemma sentinels_are_preserved_witness :
  (exists v,
      fst (analyze (replies_text (nutrient_reply 90 (lit "None"))) Nutrient
             (lit "AAAA") world0) = Returned v /\
      get v (lit "deficiencies") = Some (JArray [JString (lit "None")]) /\
      get v (lit "deficiencies") <> Some (JArray [])) /\
  (exists v,
      fst (analyze (replies_text (nutrient_reply 90 (lit "N/A"))) Soil
             (lit "AAAA") world0) = Returned v /\
      get v (lit "deficiencies") = Some (JArray [JString (lit "N/A")]) /\
      get v (lit "deficiencies") <> Some (JArray [])).
Proof.
  split.
  - apply (proj1 sentinels_are_preserved Nutrient 90%Z (lit "None")). reflexivity.
  - apply (proj1 sentinels_are_preserved Soil 90%Z (lit "N/A")). reflexivity.
Defined.

(* ================================================================== *)
(** ** More properties: the service functions *)
(* ================================================================== *)

(** X1.  Each of the nine service functions sends exactly one request
    per call, to the model [gemini-3-flash-preview], whether the call
    is rejected, answered with nothing, with text that does not parse
    or with a good reply: nothing is retried and nothing is skipped.
    None of them touches the history. *)
Theorem one_request_per_call :
  forall ai w,
    (forall k base64,
        let w' := snd (analyze ai k base64 w) in
        sent w' = sent w ++ [request_of k base64] /\ added w' = added w /\
        request_model (request_of k base64) = "gemini-3-flash-preview"%string) /\
    (forall location,
        let w' := snd (getWeatherDetails ai location w) in
        sent w' = sent w ++ [weather_request location] /\ added w' = added w /\
        request_model (weather_request location) = "gemini-3-flash-preview"%string) /\
    (forall persona history newMessage,
        let w' := snd (chat ai persona history newMessage w) in
        sent w' = sent w ++ [chat_request persona newMessage] /\ added w' = added w /\
        request_model (chat_request persona newMessage)
          = "gemini-3-flash-preview"%string) /\
    (forall t targetLanguage,
        let w' := snd (translateText ai t targetLanguage w) in
        sent w' = sent w ++ [translate_request t targetLanguage] /\
        added w' = added w /\
        request_model (translate_request t targetLanguage)
          = "gemini-3-flash-preview"%string).
Proof.
  intros ai w. split; [|split; [|split]].
  - intros k base64. cbv zeta. rewrite analyze_eq. cbv zeta.
    destruct (ai _) as [reason|resp]; [repeat split|].
    destruct (falsy_text _); [repeat split|].
    destruct (JSON_parse _); repeat split.
  - intros location. cbv zeta. rewrite getWeatherDetails_eq. cbv zeta.
    destruct (ai _) as [reason|resp]; [repeat split|].
    destruct (JSON_parse _); repeat split.
  - intros persona history newMessage. cbv zeta. rewrite chat_eq.
    destruct (ai _); destruct persona; repeat split.
  - intros t targetLanguage. cbv zeta. rewrite translateText_eq.
    destruct (ai _); repeat split.
Qed.

(** X2.  The console is written exactly for a reply whose text does
    not parse.  An image function writes one line, its label and the
    text of the reply as it came, and throws [invalid_format], when the
    reply has a non-empty text that is not JSON; in every other outcome
    it leaves the console as it was.  [getWeatherDetails] writes one
    line, its label and the error, and returns [null] data, when the
    text of the reply (or [{}] for an empty payload) is not JSON; in
    every other outcome, the JSON text [null] among them, it leaves the
    console as it was.  The chat functions and [translateText] never
    write to it. *)
Theorem console_written_only_on_parse_failure :
  forall ai w,
    (forall k base64,
        let run := analyze ai k base64 w in
        match ai (request_of k base64) with
        | Rejects _ => console (snd run) = console w
        | Replies resp =>
            if falsy_text (text resp) then console (snd run) = console w
            else
              match JSON_parse (the_text (text resp)) with
              | Some _ => console (snd run) = console w
              | None =>
                  fst run = Thrown invalid_format /\
                  console (snd run) =
                    console w ++ [[LStr (parse_log_label k);
                                   LText (the_text (text resp))]]
              end
        end) /\
    (forall location,
        let run := getWeatherDetails ai location w in
        match ai (weather_request location) with
        | Rejects _ => console (snd run) = console w
        | Replies resp =>
            match JSON_parse (text_or (text resp) (dq "{}")) with
            | Some _ => console (snd run) = console w
            | None =>
                fst run = Returned {| weather_data := JNull;
                                      weather_groundingMetadata :=
                                        first_groundingMetadata resp |} /\
                console (snd run) =
                  console w ++ [[LStr "Failed to parse weather JSON";
                                 LExn SyntaxError]]
            end
        end) /\
    (forall persona history newMessage,
        console (snd (chat ai persona history newMessage w)) = console w) /\
    (forall t targetLanguage,
        console (snd (translateText ai t targetLanguage w)) = console w).
Proof.
  intros ai w. split; [|split; [|split]].
  - intros k base64. cbv zeta. rewrite analyze_eq. cbv zeta.
    destruct (ai _) as [reason|resp]; [reflexivity|].
    destruct (falsy_text _); [reflexivity|].
    destruct (JSON_parse _); [reflexivity|]. split; reflexivity.
  - intros location. cbv zeta. rewrite getWeatherDetails_eq. cbv zeta.
    destruct (ai _) as [reason|resp]; [reflexivity|].
    destruct (JSON_parse _); [reflexivity|]. split; reflexivity.
  - intros persona history newMessage. rewrite chat_eq. destruct (ai _); reflexivity.
  - intros t targetLanguage. rewrite translateText_eq. destruct (ai _); reflexivity.
Qed.

(** X3.  A reply with an empty payload is no failure for the chat
    functions and for [translateText]: they return [undefined] ([None])
    where each image function, given the same reply, throws
    [no_response].  A reply with a text is returned as that text, and a
    rejected call throws the gateway's error. *)
Theorem chat_returns_the_text_or_undefined :
  forall ai resp,
    (forall persona history newMessage w,
        ai (chat_request persona newMessage) = Replies resp ->
        fst (chat ai persona history newMessage w) = Returned (text resp)) /\
    (forall t targetLanguage w,
        ai (translate_request t targetLanguage) = Replies resp ->
        fst (translateText ai t targetLanguage w) = Returned (text resp)) /\
    (forall k base64 w,
        ai (request_of k base64) = Replies resp ->
        text resp = None ->
        fst (analyze ai k base64 w) = Thrown no_response) /\
    (forall persona history newMessage w reason,
        ai (chat_request persona newMessage) = Rejects reason ->
        fst (chat ai persona history newMessage w) = Thrown (GatewayError reason)).
Proof.
  intros ai resp. split; [|split; [|split]].
  - intros persona history newMessage w H. rewrite chat_eq, H. reflexivity.
  - intros t targetLanguage w H. rewrite translateText_eq, H. reflexivity.
  - intros k base64 w H Ht. rewrite analyze_eq. cbv zeta. rewrite H, Ht. reflexivity.
  - intros persona history newMessage w reason H. rewrite chat_eq, H. reflexivity.
Qed.

Lemma chat_returns_the_text_or_undefined_witness :
  fst (chat replies_nothing Botanist prior_turns follow_up world0) = Returned None /\
  fst (translateText replies_nothing follow_up "Hindi" world0) = Returned None /\
  fst (analyze replies_nothing Disease (lit "AAAA") world0) = Thrown no_response /\
  fst (chat (replies_text (lit "Use neem oil.")) SoilExpert [] follow_up world0)
    = Returned (Some (lit "Use neem oil.")).
Proof.
  pose proof (chat_returns_the_text_or_undefined replies_nothing
                {| text := None; candidates := None |}) as (Hc & Ht & Ha & _).
  split; [|split; [|split]].
  - exact (Hc Botanist prior_turns follow_up world0 eq_refl).
  - exact (Ht follow_up "Hindi"%string world0 eq_refl).
  - exact (Ha Disease (lit "AAAA") world0 eq_refl eq_refl).
  - exact (proj1 (chat_returns_the_text_or_undefined
                    (replies_text (lit "Use neem oil."))
                    {| text := Some (lit "Use neem oil."); candidates := None |})
             SoilExpert [] follow_up world0 eq_refl).
Defined.

(** X4.  Once the service has replied, [getWeatherDetails] does not
    throw, whatever the reply: it returns the metadata of the first
    candidate as it came, and its data is [null] exactly when the text
    ([{}] for an empty payload) does not parse or is the JSON [null]. *)
Theorem weather_call_never_throws_on_a_reply :
  forall ai location w resp,
    ai (weather_request location) = Replies resp ->
    exists data,
      fst (getWeatherDetails ai location w) =
        Returned {| weather_data := data;
                    weather_groundingMetadata := first_groundingMetadata resp |} /\
      (data = JNull <->
       JSON_parse (text_or (text resp) (dq "{}")) = None \/
       JSON_parse (text_or (text resp) (dq "{}")) = Some JNull).
Proof.
  intros ai location w resp H. rewrite getWeatherDetails_eq. cbv zeta. rewrite H.
  destruct (JSON_parse _) as [v|].
  - exists v. split; [reflexivity|]. split.
    + intros ->. right. reflexivity.
    + intros [E|E]; [discriminate | now injection E].
  - exists JNull. split; [reflexivity|]. split; [left | ]; reflexivity.
Qed.

Lemma weather_call_never_throws_on_a_reply_witness :
  exists data,
    fst (getWeatherDetails (replies_text prose_reply) (lit "Kochi") world0) =
      Returned {| weather_data := data; weather_groundingMetadata := None |} /\
    (data = JNull <->
     JSON_parse prose_reply = None \/ JSON_parse prose_reply = Some JNull).
Proof.
  exact (weather_call_never_throws_on_a_reply (replies_text prose_reply)
           (lit "Kochi") world0 {| text := Some prose_reply; candidates := None |}
           eq_refl).
Defined.

(* ================================================================== *)
(** ** More properties: the nutrient view *)
(* ================================================================== *)

Lemma jstring_eqb_eq (a b : jstring) : JsString.eqb a b = true <-> a = b.
Proof.
  revert b; induction a as [|x a IH]; intros [|y b]; simpl;
    try (split; [discriminate | congruence]); try tauto.
  rewrite andb_true_iff, N.eqb_eq, IH. split.
  - intros [-> ->]; reflexivity.
  - intros H; injection H as -> ->; split; reflexivity.
Qed.

(** X5.  With no file selected [handleFileUpload] does nothing.  With a
    file (its type and base64 content without a comma) one and the same
    text, the base64 content of the file, is what is kept as the current
    image, what is attached to the one request sent, and what the
    history item, if one is added, carries as its image. *)
Theorem uploaded_image_is_one_payload :
  forall ai env st w,
    handleFileUpload ai env None st w = (st, w) /\
    forall f,
      has_comma (file_type f) = false ->
      has_comma (file_base64 f) = false ->
      let run := handleFileUpload ai env (Some f) st w in
      currentImage (fst run) = Some (file_base64 f) /\
      sent (snd run) = sent w ++ [request_of Nutrient (file_base64 f)] /\
      forall item, added (snd run) = added w ++ [item] ->
                   imageUrl item = file_base64 f /\
                   Some (nutrientData item) = result (fst run).
Proof.
  intros ai env st w. split; [reflexivity|].
  intros f Ht Hb. cbv zeta. unfold handleFileUpload.
  rewrite (data_url_payload f Ht Hb).
  rewrite performAnalysis_sent.
  destruct (performAnalysis_cases ai env (file_base64 f)
              (setCurrentImage (Some (file_base64 f)) st) w)
    as [(v & uuid & _ & Hv & _ & _ & -> & ->)
       |[(v & _ & Hv & _ & -> & ->)|(_ & -> & ->)]]; simpl.
  - repeat split; try reflexivity;
      apply app_inv_head in H; injection H as <-; reflexivity.
  - repeat split; try reflexivity; symmetry in H; apply app_one_neq in H;
      contradiction.
  - repeat split; try reflexivity; symmetry in H; apply app_one_neq in H;
      contradiction.
Qed.

Lemma uploaded_image_is_one_payload_witness :
  let run := handleFileUpload (replies_text stub_reply) (quiet (lit "id-1") 1%Z)
               (Some png_upload) idle world0 in
  currentImage (fst run) = Some (file_base64 png_upload) /\
  sent (snd run) = sent world0 ++ [request_of Nutrient (file_base64 png_upload)] /\
  forall item, added (snd run) = added world0 ++ [item] ->
               imageUrl item = file_base64 png_upload /\
               Some (nutrientData item) = result (fst run).
Proof.
  apply (proj2 (uploaded_image_is_one_payload (replies_text stub_reply)
                  (quiet (lit "id-1") 1%Z) idle world0) png_upload); reflexivity.
Defined.

(** X6.  After an upload that ends with a result, the scanned image is
    drawn from the data URL made of the label [image/jpeg] and the
    base64 content of the file: for a JPEG file that is the data URL
    the file was read as (the round trip is exact); for a file of
    another type only the media type differs. *)
Theorem scanned_image_round_trip :
  forall ai env st w f,
    has_comma (file_type f) = false ->
    has_comma (file_base64 f) = false ->
    file_base64 f <> [] ->
    result (fst (handleFileUpload ai env (Some f) st w)) <> None ->
    scanned_image_src (fst (handleFileUpload ai env (Some f) st w))
      = Some (lit "data:image/jpeg;base64," ++ file_base64 f) /\
    (file_type f = lit "image/jpeg" ->
     scanned_image_src (fst (handleFileUpload ai env (Some f) st w))
       = Some (readAsDataURL f)).
Proof.
  intros ai env st w f Ht Hb Hne Hres.
  unfold handleFileUpload in *. rewrite (data_url_payload f Ht Hb) in *.
  assert (E : scanned_image_src
                (fst (performAnalysis ai env (file_base64 f)
                        (setCurrentImage (Some (file_base64 f)) st) w))
              = Some (lit "data:image/jpeg;base64," ++ file_base64 f)).
  { destruct (performAnalysis_cases ai env (file_base64 f)
                (setCurrentImage (Some (file_base64 f)) st) w)
      as [(v & uuid & _ & Hv & _ & _ & E & _)
         |[(v & _ & Hv & _ & E & _)|(_ & E & _)]]; rewrite E in *.
    - unfold scanned_image_src. simpl. rewrite Hv.
      destruct (file_base64 f); [congruence | reflexivity].
    - unfold scanned_image_src. simpl. rewrite Hv.
      destruct (file_base64 f); [congruence | reflexivity].
    - simpl in Hres. congruence. }
  split; [exact E|]. intros Hj. rewrite E. unfold readAsDataURL. rewrite Hj.
  reflexivity.
Qed.

Lemma scanned_image_round_trip_witness :
  scanned_image_src (fst (handleFileUpload (replies_text stub_reply)
                            (quiet (lit "id-1") 1%Z)
                            (Some jpeg_upload) idle world0))
    = Some (readAsDataURL jpeg_upload).
Proof.
  apply (proj2 (scanned_image_round_trip (replies_text stub_reply)
                  (quiet (lit "id-1") 1%Z)
                  idle world0 jpeg_upload eq_refl eq_refl
                  ltac:(discriminate) ltac:(vm_compute; discriminate))).
  reflexivity.
Defined.



(** X8.  The history item that a successful run adds, given back to the
    component as [initialData], puts the same result and the same image
    on screen; the effect changes nothing else (it clears no error and
    stops no spinner). *)
Theorem history_item_round_trip :
  forall ai env base64 st w item st0,
    base64 <> [] ->
    added (snd (performAnalysis ai env base64 st w)) = added w ++ [item] ->
    let st2 := useEffect_initialData (Some item) st0 in
    result st2 = result (fst (performAnalysis ai env base64 st w)) /\
    currentImage st2 = Some base64 /\
    error st2 = error st0 /\ isAnalyzing st2 = isAnalyzing st0.
Proof.
  intros ai env base64 st w item st0 Hne Hadd. cbv zeta.
  destruct (performAnalysis_cases ai env base64 st w)
    as [(v & uuid & _ & Hv & _ & _ & E & A)
       |[(v & _ & Hv & _ & E & A)|(_ & E & A)]]; rewrite E; rewrite A in Hadd.
  - apply app_inv_head in Hadd. injection Hadd as <-.
    unfold useEffect_initialData. simpl. rewrite Hv. simpl.
    destruct base64; [congruence|]. repeat split.
  - symmetry in Hadd. apply app_one_neq in Hadd. contradiction.
  - symmetry in Hadd. apply app_one_neq in Hadd. contradiction.
Qed.

Lemma history_item_round_trip_witness :
  result (useEffect_initialData (Some stub_item) idle)
    = result (fst (performAnalysis (replies_text stub_reply)
                     (quiet (lit "id-1") 1%Z) (lit "AAAA") idle world0)) /\
  currentImage (useEffect_initialData (Some stub_item) idle) = Some (lit "AAAA") /\
  error (useEffect_initialData (Some stub_item) idle) = error idle /\
  isAnalyzing (useEffect_initialData (Some stub_item) idle) = isAnalyzing idle.
Proof.
  apply (history_item_round_trip (replies_text stub_reply)
           (quiet (lit "id-1") 1%Z) (lit "AAAA") idle world0 stub_item idle).
  - discriminate.
  - vm_compute. reflexivity.
Defined.

(** X9.  The effect on [initialData] sets the result and the image and
    nothing else: when an error is on screen and a history item of the
    nutrient type is opened, the page shows the error block and the
    result block together.  An item of another type, an item without
    data, or no item leave the state as it is. *)
Theorem opening_an_item_keeps_the_error :
  forall st,
    (forall item,
        type item = "nutrient-analysis"%string ->
        truthy (nutrientData item) = true ->
        isAnalyzing st = false ->
        error_shown (error st) = true ->
        cards (useEffect_initialData (Some item) st) = [ErrorCard; ResultCard]) /\
    (forall item,
        type item <> "nutrient-analysis"%string \/ truthy (nutrientData item) = false ->
        useEffect_initialData (Some item) st = st) /\
    useEffect_initialData None st = st.
Proof.
  intros st. split; [|split].
  - intros item Hty Hd Hi He. unfold useEffect_initialData.
    rewrite Hty, Hd. simpl. unfold cards. simpl. rewrite Hd, Hi, He. reflexivity.
  - intros item [Hty|Hd]; unfold useEffect_initialData.
    + apply String.eqb_neq in Hty. rewrite Hty. reflexivity.
    + rewrite Hd, andb_false_r. reflexivity.
  - reflexivity.
Qed.

Lemma opening_an_item_keeps_the_error_witness :
  cards (useEffect_initialData
           (Some (history_item (lit "id-1") 1%Z (lit "AAAA") partial_value))
           (fst (performAnalysis (replies_text prose_reply)
                   (quiet (lit "id-2") 2%Z) (lit "BBBB") idle world0)))
    = [ErrorCard; ResultCard].
Proof.
  apply (proj1 (opening_an_item_keeps_the_error _)); reflexivity.
Defined.

(** X10.  The colour of the score ring, the title and the sentence
    under it never disagree: green goes with "Excellent Vigor" and the
    healthy sentence, yellow with "Needs Attention", red with "Critical
    Condition", both with the warning sentence.  A score is not clamped:
    above 100 it is green, below 0 red; a result without [healthScore]
    is drawn red and critical. *)
Theorem score_card_is_consistent :
  forall score,
    (getScoreColor score = "text-emerald-500 border-emerald-500"%string /\
     score_title score = "Excellent Vigor"%string /\
     score_sentence score = "The plant looks healthy and robust."%string /\
     exists n, score = Some n /\ (80 <= n)%Z) \/
    (getScoreColor score = "text-yellow-500 border-yellow-500"%string /\
     score_title score = "Needs Attention"%string /\
     score_sentence score = "Deficiencies detected. Immediate action advised."%string /\
     exists n, score = Some n /\ (50 <= n < 80)%Z) \/
    (getScoreColor score = "text-red-500 border-red-500"%string /\
     score_title score = "Critical Condition"%string /\
     score_sentence score = "Deficiencies detected. Immediate action advised."%string /\
     (score = None \/ exists n, score = Some n /\ (n < 50)%Z)).
Proof.
  intros [n|].
  - unfold getScoreColor, score_title, score_sentence, score_ge.
    destruct (80 <=? n)%Z eqn:H80.
    + left. apply Z.leb_le in H80. repeat split. exists n. auto.
    + apply Z.leb_gt in H80. destruct (50 <=? n)%Z eqn:H50.
      * right; left. apply Z.leb_le in H50. repeat split. exists n. split; [auto|lia].
      * right; right. apply Z.leb_gt in H50. repeat split. right. exists n. auto.
  - right; right. repeat split. left. reflexivity.
Qed.

(** X11.  Only the first entry of [deficiencies] decides between the
    list and "No Major Deficiencies": when it is the string None the
    list is hidden whatever follows it, and when it is any other string
    (the lower-case none, N/A) the whole list is shown, a later None
    included. *)
Theorem first_deficiency_decides :
  forall r first rest,
    get r (lit "deficiencies") = Some (JArray (JString first :: rest)) ->
    (first = lit "None" -> deficiency_list_shown r = Some false) /\
    (first <> lit "None" -> deficiency_list_shown r = Some true).
Proof.
  intros r first rest H. unfold deficiency_list_shown. rewrite H. split.
  - intros ->. reflexivity.
  - intros Hne. destruct (JsString.eqb first (lit "None")) eqn:E; [|reflexivity].
    apply jstring_eqb_eq in E. contradiction.
Qed.

Lemma first_deficiency_decides_witness :
  deficiency_list_shown
    (JObject [(lit "deficiencies",
               JArray [JString (lit "None"); JString (lit "Nitrogen")])]) = Some false /\
  deficiency_list_shown
    (JObject [(lit "deficiencies",
               JArray [JString (lit "none"); JString (lit "None")])]) = Some true.
Proof.
  split.
  - apply (proj1 (first_deficiency_decides
                    (JObject [(lit "deficiencies",
                               JArray [JString (lit "None"); JString (lit "Nitrogen")])])
                    (lit "None") [JString (lit "Nitrogen")] eq_refl)). reflexivity.
  - apply (proj2 (first_deficiency_decides
                    (JObject [(lit "deficiencies",
                               JArray [JString (lit "none"); JString (lit "None")])])
                    (lit "none") [JString (lit "None")] eq_refl)). discriminate.
Defined.

(* ================================================================== *)
(** ** More properties: the weather view *)
(* ================================================================== *)

Lemma trimStart_nil (s : jstring) :
  trimStart s = [] <-> forallb is_js_space s = true.
Proof.
  induction s as [|c s IH]; simpl; [tauto|].
  destruct (is_js_space c); simpl; [exact IH|]. split; discriminate.
Qed.

Lemma trimStart_keeps_no_space (s : jstring) :
  trimStart s <> [] -> forallb is_js_space (trimStart s) = false.
Proof.
  induction s as [|c s IH]; simpl; [congruence|].
  destruct (is_js_space c) eqn:E; [exact IH|]. intros _. simpl. now rewrite E.
Qed.

Lemma forallb_rev {A : Type} (p : A -> bool) (l : list A) :
  forallb p (rev l) = forallb p l.
Proof.
  induction l as [|x l IH]; simpl; [reflexivity|].
  rewrite forallb_app, IH. simpl. rewrite andb_true_r. apply andb_comm.
Qed.

Lemma filter_all {A : Type} (p : A -> bool) (l : list A) :
  forallb p l = true -> filter p l = l.
Proof.
  induction l as [|x l IH]; simpl; [reflexivity|].
  intros H. apply andb_true_iff in H as [Hx Hl]. now rewrite Hx, (IH Hl).
Qed.

(** [trim] leaves nothing exactly of a text of white space. *)
Lemma trim_nil (s : jstring) :
  trim s = [] <-> forallb is_js_space s = true.
Proof.
  unfold trim, trimEnd. split.
  - intros H. apply (f_equal (@rev code)) in H. rewrite rev_involutive in H.
    simpl in H. apply trimStart_nil in H. rewrite forallb_rev in H.
    destruct (trimStart s) as [|c r] eqn:E.
    + now apply trimStart_nil.
    + assert (N : trimStart s <> []) by (rewrite E; discriminate).
      apply trimStart_keeps_no_space in N. rewrite E in N. congruence.
  - intros H. apply trimStart_nil in H. rewrite H. reflexivity.
Qed.

Lemma performSearch_sent (ai : Request -> GwOutcome) query st w :
  sent (snd (performSearch ai query st w)) = sent w ++ [weather_request query].
Proof.
  rewrite performSearch_eq, getWeatherDetails_eq. cbv zeta.
  destruct (ai _) as [reason|resp]; [reflexivity|].
  destruct (JSON_parse _) as [v|]; simpl; [destruct (truthy v)|]; reflexivity.
Qed.

(** X12.  Submitting the form with a city that is empty or only white
    space does nothing at all: no request, no message, the state as it
    was.  With any other city one search is made, for the city as it
    was typed, the spaces around it included. *)
Theorem blank_city_is_not_searched :
  forall ai st w,
    (forallb is_js_space (city st) = true -> handleSearch ai st w = (st, w)) /\
    (forallb is_js_space (city st) = false ->
     handleSearch ai st w = performSearch ai (city st) st w /\
     sent (snd (handleSearch ai st w)) = sent w ++ [weather_request (city st)]).
Proof.
  intros ai st w. unfold handleSearch. split.
  - intros H. apply trim_nil in H. rewrite H. reflexivity.
  - intros H. destruct (trim (city st)) as [|c r] eqn:E.
    + apply trim_nil in E. congruence.
    + simpl. split; [reflexivity | apply performSearch_sent].
Qed.

Lemma blank_city_is_not_searched_witness :
  handleSearch (replies_text weather_reply) (typed "   ") world0
    = (typed "   ", world0) /\
  sent (snd (handleSearch (replies_text weather_reply) (typed " Kochi ") world0))
    = sent world0 ++ [weather_request (lit " Kochi ")].
Proof.
  split.
  - apply (proj1 (blank_city_is_not_searched _ (typed "   ") world0)). reflexivity.
  - apply (proj2 (blank_city_is_not_searched _ (typed " Kochi ") world0)). reflexivity.
Defined.

Section Location.

Variable ai : Request -> GwOutcome.
Variable Coord : Type.
Variables toFixed2 numberToString : Coord -> jstring.

Let locate := handleLocationSearch ai Coord toFixed2 numberToString.

(** X13.  The location button sends a request only when the browser
    gives a position: then it makes one search, for the text
    [latitude ..., longitude ...] with the coordinates in full, and the
    city field shows them with two decimals.  Without geolocation, on a
    position error, or while the browser has not answered, nothing is
    sent; with no answer the view stays loading. *)
Theorem only_a_position_is_searched :
  forall st w,
    (forall latitude longitude,
        let run := locate (Position Coord latitude longitude) st w in
        sent (snd run) =
          sent w ++ [weather_request (location_query Coord numberToString
                                        latitude longitude)] /\
        city (fst run) = location_label Coord toFixed2 latitude longitude /\
        loading (fst run) = false) /\
    (forall err,
        let run := locate (PositionError Coord err) st w in
        sent (snd run) = sent w /\ city (fst run) = [] /\
        weatherData (fst run) = None /\ loading (fst run) = false /\
        weather_error (fst run) <> None) /\
    sent (snd (locate (NoGeolocation Coord) st w)) = sent w /\
    (let run := locate (NoAnswer Coord) st w in
     sent (snd run) = sent w /\ loading (fst run) = true /\
     weather_error (fst run) = None /\ weatherData (fst run) = None).
Proof.
  intros st w. unfold locate. split; [|split; [|split]].
  - intros latitude longitude. cbv zeta. unfold handleLocationSearch.
    split; [apply performSearch_sent|].
    rewrite performSearch_eq, getWeatherDetails_eq. cbv zeta.
    destruct (ai _) as [reason|resp]; [split; reflexivity|].
    destruct (JSON_parse _) as [v|]; simpl; [destruct (truthy v)|]; split; reflexivity.
  - intros err. cbv zeta. simpl. repeat split. discriminate.
  - reflexivity.
  - cbv zeta. simpl. repeat split.
Qed.

(** X14.  Where the browser has no geolocation the location button only
    sets its message: a weather result that an earlier search had put
    on screen stays there, so the result and an error are shown
    together, which no search and no other outcome of the button
    leaves behind. *)
Theorem no_geolocation_keeps_the_old_result :
  forall query st w,
    let st1 := fst (performSearch ai query st w) in
    let w1 := snd (performSearch ai query st w) in
    weatherData st1 <> None ->
    let st2 := fst (locate (NoGeolocation Coord) st1 w1) in
    weatherData st2 = weatherData st1 /\
    result_shown (weatherData st2) = true /\
    weather_error st2 =
      Some "Geolocation is not supported by your browser."%string /\
    (forall err, weatherData (fst (locate (PositionError Coord err) st1 w1)) = None).
Proof.
  intros query st w. cbv zeta. unfold locate.
  rewrite performSearch_eq, getWeatherDetails_eq. cbv zeta.
  destruct (ai _) as [reason|resp]; [simpl; congruence|].
  destruct (JSON_parse _) as [v|]; simpl; [destruct (truthy v) eqn:Hv|]; simpl;
    try congruence.
  intros _. rewrite Hv. repeat split.
Qed.

End Location.

Lemma no_geolocation_keeps_the_old_result_witness :
  let ai := replies_text weather_reply in
  let st1 := fst (performSearch ai (lit "Kochi") nowhere world0) in
  let w1 := snd (performSearch ai (lit "Kochi") nowhere world0) in
  let st2 := fst (handleLocationSearch ai unit (fun _ => []) (fun _ => [])
                    (NoGeolocation unit) st1 w1) in
  weatherData st2 = weatherData st1 /\
  result_shown (weatherData st2) = true /\
  weather_error st2 = Some "Geolocation is not supported by your browser."%string.
Proof.
  cbv zeta.
  destruct (no_geolocation_keeps_the_old_result (replies_text weather_reply)
              unit (fun _ => []) (fun _ => []) (lit "Kochi") nowhere world0
              ltac:(vm_compute; discriminate)) as (H1 & H2 & H3 & _).
  repeat split; assumption.
Defined.

(** X15.  The big temperature of the weather card is the [temp] text
    with everything but digits, dots and minus signs taken out (so a
    unit or a degree sign goes, and a text of those characters only is
    shown as it is); and the expression throws exactly when the data
    has no [current] object or its [temp] is not a string. *)
Theorem temperature_is_digits_or_a_throw :
  forall v,
    match temperature_shown v with
    | Some t =>
        forallb temp_kept t = true /\
        exists cur raw,
          get v (lit "current") = Some cur /\
          get cur (lit "temp") = Some (JString raw) /\
          t = filter temp_kept raw /\
          (forallb temp_kept raw = true -> t = raw)
    | None =>
        get v (lit "current") = None \/
        exists cur, get v (lit "current") = Some cur /\
                    forall raw, get cur (lit "temp") <> Some (JString raw)
    end.
Proof.
  intros v. unfold temperature_shown.
  destruct (get v (lit "current")) as [cur|] eqn:Ec; [|left; reflexivity].
  destruct cur as [|b|m e|s|items|props];
    [ right; exists JNull; split; [reflexivity | intros raw; discriminate] | .. ];
    destruct (get _ (lit "temp")) as [[|b'|m' e'|t|items'|props']|] eqn:Et;
    try (right; eexists; split; [reflexivity|]; intros raw; rewrite Et; discriminate).
  all: split; [apply forallb_forall; intros c Hc; now apply filter_In in Hc|];
    eexists _, t; repeat split; try exact Et; apply filter_all.
Qed.

(** X16.  A reply that parses to a value without [current] (the empty
    object of an empty payload among them) is taken as the weather
    result: the flow ends with it on screen and no error message, and
    the temperature expression of the card throws on it. *)
Theorem reply_without_current_breaks_the_card :
  forall ai query st w resp v,
    ai (weather_request query) = Replies resp ->
    JSON_parse (text_or (text resp) (dq "{}")) = Some v ->
    truthy v = true ->
    get v (lit "current") = None ->
    weatherData (fst (performSearch ai query st w)) = Some v /\
    weather_error (fst (performSearch ai query st w)) = None /\
    temperature_shown v = None.
Proof.
  intros ai query st w resp v Hai Hp Hv Hc.
  rewrite performSearch_eq, getWeatherDetails_eq. cbv zeta.
  rewrite Hai, Hp. simpl. rewrite Hv. simpl.
  unfold temperature_shown. rewrite Hc. repeat split.
Qed.

Lemma reply_without_current_breaks_the_card_witness :
  weatherData (fst (performSearch replies_nothing (lit "Kochi") nowhere world0))
    = Some (JObject []) /\
  weather_error (fst (performSearch replies_nothing (lit "Kochi") nowhere world0))
    = None /\
  temperature_shown (JObject []) = None.
Proof.
  apply (reply_without_current_breaks_the_card replies_nothing (lit "Kochi")
           nowhere world0 {| text := None; candidates := None |} (JObject []));
    reflexivity.
Defined.

Lemma starts_with_app (sub b : jstring) : starts_with sub (sub ++ b) = true.
Proof.
  unfold starts_with. induction sub as [|c sub IH]; simpl; [reflexivity|].
  rewrite N.eqb_refl. exact IH.
Qed.

Lemma includes_eq (s sub : jstring) :
  includes s sub =
    starts_with sub s || match s with [] => false | _ :: r => includes r sub end.
Proof. destruct s; reflexivity. Qed.

Lemma includes_app (a sub b : jstring) : includes (a ++ sub ++ b) sub = true.
Proof.
  induction a as [|c a IH].
  - simpl app. rewrite includes_eq, starts_with_app. reflexivity.
  - simpl. rewrite IH. apply orb_true_r.
Qed.

Section Icons.

Variable toLowerCase : jstring -> jstring.

(** On an ASCII text [toLowerCase] lowers the letters A to Z and leaves
    the rest. *)
Hypothesis toLowerCase_ascii :
  forall s, is_ascii s = true -> toLowerCase s = ascii_lower s.

(** X17.  A condition (in ASCII) that has the word rain or drizzle
    anywhere in it, in any letter case, is drawn with the rain icon,
    whatever else it says: a thunderstorm with rain, a snow and rain
    mix, and a word that merely contains rain are all rain. *)
Theorem rain_comes_first :
  forall a r b,
    is_ascii (a ++ r ++ b) = true ->
    ascii_lower r = lit "rain" \/ ascii_lower r = lit "drizzle" ->
    getWeatherIcon toLowerCase (a ++ r ++ b) = RainIcon.
Proof.
  intros a r b Ha Hr. unfold getWeatherIcon. cbv zeta.
  rewrite (toLowerCase_ascii _ Ha). unfold ascii_lower in *.
  rewrite !map_app. destruct Hr as [-> | ->].
  - rewrite includes_app. reflexivity.
  - rewrite includes_app, orb_true_r. reflexivity.
Qed.

End Icons.

Lemma rain_comes_first_witness :
  getWeatherIcon ascii_lower (lit "Thunderstorm with heavy RAIN showers") = RainIcon /\
  getWeatherIcon ascii_lower (lit "Light Drizzle, then snow") = RainIcon.
Proof.
  split.
  - apply (rain_comes_first ascii_lower (fun s _ => eq_refl)
             (lit "Thunderstorm with heavy ") (lit "RAIN") (lit " showers"));
      [reflexivity | left; reflexivity].
  - apply (rain_comes_first ascii_lower (fun s _ => eq_refl)
             (lit "Light ") (lit "Drizzle") (lit ", then snow"));
      [reflexivity | right; reflexivity].
Defined.

(** X18.  A search that ends with an error leaves no grounding
    metadata in the state, whatever an earlier search had stored; and
    while there is no result the "Verified Sources" block draws nothing,
    also for the metadata that the location button leaves in place. *)
Theorem failed_search_shows_no_sources :
  forall ai hostname query st w,
    (weather_error (fst (performSearch ai query st w)) <> None ->
     shownMetadata (fst (performSearch ai query st w)) = None /\
     sources_block hostname (fst (performSearch ai query st w)) = Some []) /\
    (forall (Coord : Type) (f g : Coord -> jstring) err,
        let st' := fst (handleLocationSearch ai Coord f g (PositionError Coord err) st w) in
        shownMetadata st' = shownMetadata st /\
        sources_block hostname st' = Some []).
Proof.
  intros ai hostname query st w. split.
  - rewrite performSearch_eq, getWeatherDetails_eq. cbv zeta.
    destruct (ai _) as [reason|resp]; [intros _; split; reflexivity|].
    destruct (JSON_parse _) as [v|]; simpl; [destruct (truthy v)|]; simpl;
      intros H; try congruence; split; reflexivity.
  - intros Coord f g err. cbv zeta. split; reflexivity.
Qed.

Lemma failed_search_shows_no_sources_witness :
  let st := {| city := lit "Kochi"; weatherData := None;
               shownMetadata := Some {| groundingChunks := Some [cited] |};
               loading := false; weather_error := None |} in
  shownMetadata (fst (performSearch (unreachable (lit "fetch failed"))
                        (lit "Kochi") st world0)) = None /\
  sources_block no_hostname
    (fst (performSearch (unreachable (lit "fetch failed")) (lit "Kochi") st world0))
    = Some [].
Proof.
  cbv zeta.
  apply (proj1 (failed_search_shows_no_sources (unreachable (lit "fetch failed"))
                  no_hostname (lit "Kochi") _ world0)).
  vm_compute. discriminate.
Defined.

(** X19.  Every link of the "Verified Sources" block comes from one
    chunk of the metadata: its key is the position of that chunk in the
    list (chunks without a link are skipped, not renumbered), its
    target is the link of the chunk, and its text is the title of the
    chunk, or the host name of the link when the title is missing or
    empty. *)
Theorem anchor_comes_from_its_chunk :
  forall hostname chunks i anchors,
    render_chunks hostname i chunks = Some anchors ->
    forall a, In a anchors ->
      (i <= key a)%nat /\
      exists c, nth_error chunks (key a - i) = Some c /\
                resolvable_uri c = Some (href a) /\
                link_label hostname c (href a) = Some (label a).
Proof.
  intros hostname chunks. induction chunks as [|c rest IH]; intros i anchors H a Ha.
  - simpl in H. injection H as <-. destruct Ha.
  - simpl in H. destruct (resolvable_uri c) as [u|] eqn:Hu.
    + destruct (link_label hostname c u) as [l|] eqn:Hl; [|discriminate].
      destruct (render_chunks hostname (S i) rest) as [anchors'|] eqn:Hr; [|discriminate].
      injection H as <-. destruct Ha as [<-|Ha].
      * simpl. split; [lia|]. exists c. rewrite Nat.sub_diag. repeat split; assumption.
      * destruct (IH _ _ Hr a Ha) as (Hle & c' & Hn & Hc').
        split; [lia|]. exists c'. split; [|exact Hc'].
        replace (key a - i)%nat with (S (key a - S i)) by lia. exact Hn.
    + destruct (IH _ _ H a Ha) as (Hle & c' & Hn & Hc').
      split; [lia|]. exists c'. split; [|exact Hc'].
      replace (key a - i)%nat with (S (key a - S i)) by lia. exact Hn.
Qed.

Lemma anchor_comes_from_its_chunk_witness :
  (0 <= 1)%nat /\
  exists c, nth_error [uncited; cited] (1 - 0) = Some c /\
            resolvable_uri c = Some (lit "https://weather.example/kochi") /\
            link_label no_hostname c (lit "https://weather.example/kochi")
              = Some (lit "Kochi forecast").
Proof.
  exact (anchor_comes_from_its_chunk no_hostname [uncited; cited] 0%nat
           [{| key := 1%nat; href := lit "https://weather.example/kochi";
               label := lit "Kochi forecast" |}]
           eq_refl
           {| key := 1%nat; href := lit "https://weather.example/kochi";
              label := lit "Kochi forecast" |}
           (or_introl eq_refl)).
Defined.

(** X20.  The block throws exactly when some chunk with a link has no
    title (or an empty one) and a link that [new URL] rejects; one such
    chunk is enough to lose all the links. *)
Theorem one_bad_link_breaks_the_block :
  forall hostname chunks i,
    render_chunks hostname i chunks = None <->
    exists c u, In c chunks /\ resolvable_uri c = Some u /\
                link_label hostname c u = None.
Proof.
  intros hostname chunks. induction chunks as [|c rest IH]; intros i; simpl.
  - split; [discriminate | intros (c & u & [] & _)].
  - destruct (resolvable_uri c) as [u|] eqn:Hu.
    + destruct (link_label hostname c u) as [l|] eqn:Hl.
      * destruct (render_chunks hostname (S i) rest) as [anchors|] eqn:Hr.
        -- split; [discriminate|]. intros (c' & u' & [<-|Hin] & Hu' & Hl').
           ++ congruence.
           ++ assert (N : render_chunks hostname (S i) rest = None)
                by (apply IH; eauto). congruence.
        -- split; [|reflexivity]. intros _. apply IH in Hr.
           destruct Hr as (c' & u' & Hin & H'). exists c', u'. split; [right|]; assumption.
      * split; [|reflexivity]. intros _. exists c, u. repeat split; auto.
    + rewrite IH. split.
      * intros (c' & u' & Hin & H'). exists c', u'. split; [right|]; assumption.
      * intros (c' & u' & [<-|Hin] & Hu' & Hl'); [congruence|]. eauto.
Qed.

(* ================================================================== *)
(** ** More properties: the sidebar *)
(* ================================================================== *)

(** X21.  The identifiers of the navigation are all different: for
    every current view at most one entry is drawn as current, and it
    is the entry of that view; a click on an entry asks for the view of
    that entry, which then is the one drawn as current, and never
    closes the drawer (only the backdrop and the close button do). *)
Theorem navigation_marks_one_entry :
  NoDup (map fst navItems) /\
  (forall currentView,
      highlighted currentView = [] \/
      exists label, highlighted currentView = [(currentView, label)]) /\
  (forall item, In item navItems ->
      sidebar_click (ClickNav item) = onViewChange (fst item) /\
      highlighted (fst item) = [item]) /\
  (forall c, sidebar_click c = onCloseMobile -> c = ClickBackdrop \/ c = ClickClose).
Proof.
  split; [|split; [|split]].
  - repeat constructor; simpl; intuition discriminate.
  - intros v. unfold highlighted, navItems. simpl.
    repeat match goal with
           | |- context [String.eqb v ?s] =>
               let E := fresh "E" in
               destruct (String.eqb v s) eqn:E;
               [ apply String.eqb_eq in E; subst v; right; eexists; reflexivity | ]
           end.
    left. reflexivity.
  - intros item Hin. simpl in Hin.
    repeat (destruct Hin as [<-|Hin]; [split; reflexivity|]). destruct Hin.
  - intros [item| | |]; simpl; intros H; try discriminate; auto.
Qed.

Lemma navigation_marks_one_entry_witness :
  sidebar_click (ClickNav ("weather", "Weather & Risks")%string)
    = onViewChange "weather" /\
  highlighted "weather" = [("weather", "Weather & Risks")%string].
Proof.
  apply (proj1 (proj2 (proj2 navigation_marks_one_entry))).
  simpl. tauto.
Defined.

(* ================================================================== *)
(** ** More properties: nothing is left of an earlier run *)
(* ================================================================== *)

(** X22.  A new run wipes what the last one left: the state in which
    the nutrient flow ends depends on the state it started from through
    the current image only, and the state in which a weather search
    ends through the city field only; an old result, an old error or
    old sources never come through. *)
Theorem a_run_starts_from_scratch :
  forall ai w,
    (forall env base64 st1 st2,
        currentImage st1 = currentImage st2 ->
        fst (performAnalysis ai env base64 st1 w)
          = fst (performAnalysis ai env base64 st2 w)) /\
    (forall query st1 st2,
        city st1 = city st2 ->
        fst (performSearch ai query st1 w) = fst (performSearch ai query st2 w)).
Proof.
  intros ai w. split.
  - intros env base64 st1 st2 H. rewrite !performAnalysis_eq.
    destruct (analyzePlantNutrients ai base64 w) as [[v|err] w1];
      [destruct (truthy v);
       [destruct (crypto_randomUUID env);
        [destruct (onAddToHistory_prop env _)|]|]|];
      simpl; rewrite H; reflexivity.
  - intros query st1 st2 H. rewrite !performSearch_eq.
    destruct (getWeatherDetails ai query w) as [[r|err] w1];
      [destruct (truthy (weather_data r))|]; simpl; rewrite H; reflexivity.
Qed.

Lemma a_run_starts_from_scratch_witness :
  fst (performSearch (unreachable (lit "fetch failed")) (lit "Kochi")
         {| city := lit "Kochi"; weatherData := Some (JObject []);
            shownMetadata := Some {| groundingChunks := Some [cited] |};
            loading := false; weather_error := None |} world0)
    = fst (performSearch (unreachable (lit "fetch failed")) (lit "Kochi")
             (typed "Kochi") world0).
Proof.
  apply (proj2 (a_run_starts_from_scratch (unreachable (lit "fetch failed")) world0)).
  reflexivity.
Defined.
